(** * Lapa-IpLimit: the usage-tracking and limit-enforcement cycle

    A shallow embedding of [utils/check_usage.py].  Python's insertion-ordered
    [dict] is an association list with unique keys, a Python [int] is a [Z],
    [len] is a [nat], a [str] is a [string] of UTF-8 bytes.  The two module
    globals [ACTIVE_USERS] and [IP_STREAKS] are the fields of an explicit
    state record that every cycle takes and returns; what the cycle does to
    the outside world (logger, notifier, panel API, standard output) is the
    list of events it emits, in order.  A cycle starts from the configuration
    that [read_config] returned, and its awaits run without another task
    touching the two globals in between, as in the single periodic task of
    the program. *)

From Stdlib Require Import List String Ascii ZArith Lia Bool Arith.
From Stdlib Require Import Permutation Sorted DecimalString.
Import ListNotations.
Local Open Scope list_scope.
Local Open Scope string_scope.

Set Implicit Arguments.

(** ** Strings *)

Definition LF : string := String (ascii_of_nat 10) EmptyString.

(** [sep.join(parts)] *)
Fixpoint join (sep : string) (parts : list string) : string :=
  match parts with
  | [] => ""
  | [p] => p
  | p :: rest => p ++ sep ++ join sep rest
  end.

(** [str(n)] of a Python int. *)
Definition str_of_Z (n : Z) : string := NilZero.string_of_int (Z.to_int n).

(** [str(len(x))] *)
Definition str_of_nat (n : nat) : string := str_of_Z (Z.of_nat n).

(** [x in xs] for a list of strings. *)
Fixpoint str_in (x : string) (xs : list string) : bool :=
  match xs with
  | [] => false
  | y :: ys => if String.eqb x y then true else str_in x ys
  end.

(** ** Python dictionaries with string keys

    Iteration follows insertion order; assigning to a key that is already
    there keeps its position, assigning to a new key appends it. *)

Module PyDict.
Section Ops.
Variable V : Type.

Definition dict := list (string * V).

Definition keys (d : dict) : list string := map fst d.
Definition values (d : dict) : list V := map snd d.

(** [d.get(k)] *)
Fixpoint get (d : dict) (k : string) : option V :=
  match d with
  | [] => None
  | (k', v) :: r => if String.eqb k k' then Some v else get r k
  end.

(** [k in d] *)
Definition mem (d : dict) (k : string) : bool :=
  match get d k with Some _ => true | None => false end.

(** [d[k] = v] *)
Fixpoint set (d : dict) (k : string) (v : V) : dict :=
  match d with
  | [] => [(k, v)]
  | (k', v') :: r =>
      if String.eqb k k' then (k', v) :: r else (k', v') :: set r k v
  end.

(** [del d[k]].  The source deletes only keys it has just read out of [d],
    so the [KeyError] of a missing key cannot arise; on such a key the model
    leaves [d] as it is. *)
Fixpoint del (d : dict) (k : string) : dict :=
  match d with
  | [] => []
  | (k', v') :: r =>
      if String.eqb k k' then r else (k', v') :: del r k
  end.

(** Keys are unique: the invariant of a dictionary. *)
Definition wf (d : dict) : Prop := NoDup (keys d).
End Ops.
End PyDict.

Abbreviation dict := PyDict.dict.

(** ** Pluralisation of the Russian noun *)

Definition _ru_plurals_logs (n : Z) : string :=
  let n_abs := Z.abs n in
  if (11 <=? n_abs mod 100)%Z && (n_abs mod 100 <=? 14)%Z then "логов"
  else
    let last := (n_abs mod 10)%Z in
    if (last =? 1)%Z then "лог"
    else if (2 <=? last)%Z && (last <=? 4)%Z then "лога"
    else "логов".

(** ** What the Python runtime decides

    The order in which a [set] of strings is iterated depends on the hash
    seed of the process, and [repr] of a string on its characters.  The model
    takes both from the runtime: an iteration order for [set(xs)] that lists
    every member of [xs] once, and a [repr] for strings. *)

Class PyRuntime := {
  set_iter : list string -> list string;
  set_iter_NoDup : forall xs, NoDup (set_iter xs);
  set_iter_In : forall xs x, In x (set_iter xs) <-> In x xs;
  repr : string -> string
}.

(** [str(xs)] for a list of strings, as ["%s"] prints it. *)
Definition str_of_list `{PyRuntime} (xs : list string) : string :=
  "[" ++ join ", " (map repr xs) ++ "]".

(** [str(set(xs))] *)
Definition str_of_set `{PyRuntime} (xs : list string) : string :=
  match set_iter xs with
  | [] => "set()"
  | ys => "{" ++ join ", " (map repr ys) ++ "}"
  end.

(** ** Data model *)

(** [utils.types.UserType], by the two fields this module reads and writes. *)
Record UserType := { name : string; ip : list string }.

Definition streak_table := dict (dict Z).

Record globals := {
  ACTIVE_USERS : dict UserType;
  IP_STREAKS : streak_table
}.

Inductive exn :=
| KeyError (key : string)
| ValueError (msg : string)
| OtherError (msg : string).

Inductive event :=
| LogInfo (text : string)
| LogWarning (text : string)
| SendLogs (text : string)
| DisableUser (user : UserType)
| Print (text : string)
| Sleep (seconds : Z).

(** The configuration document, a key that is missing being [None]. *)
Record config := {
  EXCEPT_USERS : option (list string);
  SPECIAL_LIMIT : option (dict Z);
  GENERAL_LIMIT : option Z;
  CHECK_INTERVAL : option Z
}.

(** ** check_ip_used *)

(** [dict.fromkeys(xs)] *)
Definition fromkeys (xs : list string) : dict unit :=
  fold_left (fun d k => PyDict.set d k tt) xs [].

(** [list(dict.fromkeys(xs))] *)
Definition unique_ips (xs : list string) : list string :=
  PyDict.keys (fromkeys xs).

(** [d.get(k, default)], given [d.get(k)]. *)
Definition get_default {A : Type} (o : option A) (d : A) : A :=
  match o with Some a => a | None => d end.

Fixpoint sum_nat (ns : list nat) : nat :=
  match ns with
  | [] => 0
  | n :: r => n + sum_nat r
  end.

Section WithRuntime.
Context `{RT : PyRuntime}.

(** One turn of the loop over [list(ACTIVE_USERS.keys())]. *)
Definition snapshot_user (active : dict UserType)
    (acc : dict (list string) * list event) (email : string)
    : dict (list string) * list event :=
  match PyDict.get active email with
  | Some data =>
      let unique := unique_ips (ip data) in
      (PyDict.set (fst acc) email unique,
       (snd acc
        ++ [LogInfo ("User snapshot: " ++ email ++ " -> " ++ str_of_list unique)])%list)
  | None => acc
  end.

Definition check_ip_used (active : dict UserType)
    : dict (list string) * list event :=
  let (all_users_log, logs) :=
    fold_left (snapshot_user active) (PyDict.keys active) ([], []) in
  let total_ips :=
    sum_nat (map (@List.length string) (PyDict.values all_users_log)) in
  (all_users_log,
   (logs ++ [LogInfo ("Количество всех активных IP-адресов за прогон: "
                      ++ str_of_nat total_ips)])%list).

(** ** _update_ip_streaks *)

(** [IP_STREAKS[user]] on the [defaultdict(dict)]: a user that is missing
    gets an empty mapping, which stays in the table. *)
Definition getitem (t : streak_table) (user : string) : dict Z * streak_table :=
  match PyDict.get t user with
  | Some m => (m, t)
  | None => ([], PyDict.set t user [])
  end.

(** [IP_STREAKS[user][ip] = IP_STREAKS[user].get(ip, 0) + 1] *)
Definition bump (user : string) (t : streak_table) (ip_addr : string)
    : streak_table :=
  let (m, t1) := getitem t user in
  let v := (get_default (PyDict.get m ip_addr) 0 + 1)%Z in
  let (m', t2) := getitem t1 user in
  PyDict.set t2 user (PyDict.set m' ip_addr v).

(** [del IP_STREAKS[user][ip]] *)
Definition del_ip (user : string) (t : streak_table) (ip_addr : string)
    : streak_table :=
  let (m, t1) := getitem t user in
  PyDict.set t1 user (PyDict.del m ip_addr).

(** The body of the loop over [current_active.items()]. *)
Definition update_user (t : streak_table) (item : string * list string)
    : streak_table :=
  let (user, ips) := item in
  let t1 := fold_left (bump user) (set_iter ips) t in
  let (m, t2) := getitem t1 user in
  let stale_ips := filter (fun k => negb (str_in k ips)) (PyDict.keys m) in
  fold_left (del_ip user) stale_ips t2.

Definition _update_ip_streaks (t : streak_table)
    (current_active : dict (list string)) : streak_table :=
  let t1 := fold_left update_user current_active t in
  let stale_users :=
    filter (fun u => negb (PyDict.mem current_active u)) (PyDict.keys t1) in
  fold_left (@PyDict.del (dict Z)) stale_users t1.

(** The streak the table holds for a user and an address. *)
Definition streak (t : streak_table) (user ip_addr : string) : option Z :=
  match PyDict.get t user with
  | Some m => PyDict.get m ip_addr
  | None => None
  end.

(** ** _format_streak_messages *)

(** [sorted(xs, key=key, reverse=True)]: descending by key, and stable, so
    items with equal keys keep the order they had in [xs]. *)
Fixpoint insert_desc {A : Type} (key : A -> Z) (x : A) (sorted : list A)
    : list A :=
  match sorted with
  | [] => [x]
  | y :: r =>
      if (key x <? key y)%Z then y :: insert_desc key x r else x :: sorted
  end.

Definition sorted_desc {A : Type} (key : A -> Z) (xs : list A) : list A :=
  fold_right (insert_desc key) [] xs.

Definition format_line (item : string * Z) : string :=
  let (ip_addr, n) := item in
  "- " ++ ip_addr ++ " (" ++ str_of_Z n ++ " " ++ _ru_plurals_logs n ++ " подряд)".

Definition format_block (user : string) (ip_map : dict Z) : string :=
  let ips_sorted := sorted_desc (fun kv => snd kv) ip_map in
  let header :=
    user ++ " всего " ++ str_of_nat (List.length ips_sorted) ++ " активных ip" in
  header ++ "  " ++ LF ++ join LF (map format_line ips_sorted).

Fixpoint format_blocks (users_sorted : list (string * dict Z)) : list string :=
  match users_sorted with
  | [] => []
  | (user, ip_map) :: r =>
      match ip_map with
      | [] => format_blocks r
      | _ :: _ => format_block user ip_map :: format_blocks r
      end
  end.

Definition _format_streak_messages (t : streak_table) : list string :=
  let users_sorted :=
    sorted_desc (fun kv => Z.of_nat (List.length (snd kv))) t in
  format_blocks users_sorted.

(** ** check_users_usage *)

(** [range(0, stop, step)] for a positive step. *)
Definition range0 (stop step : nat) : list nat :=
  map (fun q => q * step) (seq 0 ((stop + step - 1) / step)).

(** [xs[i : j]] *)
Definition slice {A : Type} (xs : list A) (i j : nat) : list A :=
  firstn (j - i) (skipn i xs).

(** [[messages[i : i + 50] for i in range(0, len(messages), 50)]] *)
Definition chunks (messages : list string) : list (list string) :=
  map (fun i => slice messages i (i + 50)) (range0 (List.length messages) 50).

Definition summary_line (t : streak_table) : string :=
  let total_ips := sum_nat (map (@List.length (string * Z)) (PyDict.values t)) in
  "---------" ++ LF ++ "Всего активных IP: <b>" ++ str_of_nat total_ips ++ "</b>".

(** [messages] once the summary line is appended. *)
Definition report_messages (t : streak_table) : list string :=
  (_format_streak_messages t ++ [summary_line t])%list.

Definition shorter_messages (t : streak_table) : list string :=
  map (join (LF ++ LF)) (chunks (report_messages t)).

Definition warning_message (user_name : string) (ip_map : dict Z) : string :=
  "User " ++ user_name ++ " has " ++ str_of_nat (List.length ip_map)
  ++ " active ips. " ++ str_of_set (PyDict.keys ip_map).

(** What the loop does for a user over the limit, up to the call of the
    panel. *)
Definition flag_events (user_name : string) (ip_map : dict Z) : list event :=
  let message := warning_message user_name ip_map in
  [LogWarning message;
   SendLogs ("<b>Warning: </b>" ++ message);
   DisableUser {| name := user_name; ip := [] |}].

Section Enforce.
Variable PanelType : Type.
(** [await disable_user(panel_data, user)]: [None] when the call returns,
    the exception when it raises. *)
Variable disable_user : PanelType -> UserType -> option exn.
Variable panel_data : PanelType.
Variable except_users : list string.
Variable special_limit : dict Z.
Variable limit_number : Z.

(** [int(special_limit.get(user_name, limit_number))] *)
Definition user_limit (user_name : string) : Z :=
  match PyDict.get special_limit user_name with
  | Some n => n
  | None => limit_number
  end.

(** The loop over [IP_STREAKS.items()]: the events it emits and the
    exception that ended it, if one did. *)
Fixpoint enforce (items : list (string * dict Z)) : list event * option exn :=
  match items with
  | [] => ([], None)
  | (user_name, ip_map) :: rest =>
      if str_in user_name except_users then enforce rest
      else
        let user_limit_number := user_limit user_name in
        let active_ip_count := Z.of_nat (List.length ip_map) in
        if (user_limit_number <? active_ip_count)%Z then
          match disable_user panel_data {| name := user_name; ip := [] |} with
          | None =>
              let (evs, res) := enforce rest in
              ((flag_events user_name ip_map ++ evs)%list, res)
          | Some (ValueError error) =>
              let (evs, res) := enforce rest in
              ((flag_events user_name ip_map ++ Print error :: evs)%list, res)
          | Some e => (flag_events user_name ip_map, Some e)
          end
        else enforce rest
  end.
End Enforce.

Record outcome := {
  final : globals;
  trace : list event;
  raised : option exn
}.

Section Cycle.
Variable PanelType : Type.
Variable disable_user : PanelType -> UserType -> option exn.

Definition check_users_usage (config_data : config) (panel_data : PanelType)
    (g : globals) : outcome :=
  let (all_users_log, logs) := check_ip_used (ACTIVE_USERS g) in
  let streaks := _update_ip_streaks (IP_STREAKS g) all_users_log in
  let sent := map SendLogs (shorter_messages streaks) in
  let except_users := get_default (EXCEPT_USERS config_data) [] in
  let special_limit := get_default (SPECIAL_LIMIT config_data) [] in
  match GENERAL_LIMIT config_data with
  | None =>
      {| final := {| ACTIVE_USERS := ACTIVE_USERS g; IP_STREAKS := streaks |};
         trace := (logs ++ sent)%list;
         raised := Some (KeyError "GENERAL_LIMIT") |}
  | Some limit_number =>
      match enforce disable_user panel_data except_users special_limit
                    limit_number streaks with
      | (evs, Some e) =>
          {| final := {| ACTIVE_USERS := ACTIVE_USERS g; IP_STREAKS := streaks |};
             trace := (logs ++ sent ++ evs)%list;
             raised := Some e |}
      | (evs, None) =>
          {| final := {| ACTIVE_USERS := []; IP_STREAKS := streaks |};
             trace := (logs ++ sent ++ evs)%list;
             raised := None |}
      end
  end.
End Cycle.

(** ** run_check_users_usage

    The loop never ends by itself; the model runs it over the finitely many
    cycles whose surroundings it is given, and stops early when a cycle
    raises.  Between two cycles the session poller fills [ACTIVE_USERS]; the
    cycle finds there what [polled] says. *)

Record surroundings (PanelType : Type) := {
  polled : dict UserType;
  cycle_config : config;
  sleep_config : config;
  disable_user_now : PanelType -> UserType -> option exn
}.

(** The streak-update steps of consecutive cycles, one per snapshot. *)
Definition streaks_after (t : streak_table) (snapshots : list (dict UserType))
    : streak_table :=
  fold_left (fun t snap => _update_ip_streaks t (fst (check_ip_used snap)))
            snapshots t.

Fixpoint run_check_users_usage {PanelType : Type}
    (cycles : list (surroundings PanelType)) (panel_data : PanelType)
    (g : globals) : outcome :=
  match cycles with
  | [] => {| final := g; trace := []; raised := None |}
  | c :: rest =>
      let o := check_users_usage (disable_user_now c) (cycle_config c) panel_data
                 {| ACTIVE_USERS := polled c; IP_STREAKS := IP_STREAKS g |} in
      match raised o with
      | Some _ => o
      | None =>
          match CHECK_INTERVAL (sleep_config c) with
          | None =>
              {| final := final o; trace := trace o;
                 raised := Some (KeyError "CHECK_INTERVAL") |}
          | Some seconds =>
              let o' := run_check_users_usage rest panel_data (final o) in
              {| final := final o';
                 trace := (trace o ++ Sleep seconds :: trace o')%list;
                 raised := raised o' |}
          end
      end
  end.

(** Whether an address is in a user's de-duplicated active set of a
    snapshot. *)
Definition is_active (snap : dict UserType) (user ip_addr : string) : bool :=
  match PyDict.get (fst (check_ip_used snap)) user with
  | Some ips => str_in ip_addr ips
  | None => false
  end.

(** The table has unique keys, and so has every mapping in it. *)
Definition table_wf (t : streak_table) : Prop :=
  PyDict.wf t /\ forall u m, PyDict.get t u = Some m -> PyDict.wf m.

(** The mapping [IP_STREAKS[user]] evaluates to. *)
Definition entry (t : streak_table) (user : string) : dict Z :=
  get_default (PyDict.get t user) [].

(** The streak an address has after a cycle in which it is active. *)
Definition next_streak (old : option Z) : Z := (get_default old 0 + 1)%Z.

End WithRuntime.

(** ** First-seen-first-kept, in the words of the specification

    Walk the occurrence list from the left and keep an address exactly when
    it has not been seen before. *)
Fixpoint first_seen (seen xs : list string) : list string :=
  match xs with
  | [] => []
  | x :: r =>
      if str_in x seen then first_seen seen r
      else x :: first_seen (x :: seen) r
  end.

Definition differs_from (x y : string) : bool := negb (String.eqb y x).

(** What the reducer makes of one user's record. *)
Definition reduced (data : UserType) : list string := unique_ips (ip data).

(** ** Reading a trace *)

(** The users the panel was asked to disable, in the order of the calls. *)
Fixpoint disabled (evs : list event) : list string :=
  match evs with
  | [] => []
  | DisableUser user :: r => name user :: disabled r
  | _ :: r => disabled r
  end.

(** The texts handed to [send_logs], in the order of the calls. *)
Fixpoint dispatched (evs : list event) : list string :=
  match evs with
  | [] => []
  | SendLogs text :: r => text :: dispatched r
  | _ :: r => dispatched r
  end.

(** What [except ValueError as error: print(error)] does with the outcome
    of the panel call. *)
Definition diagnostics (result : option exn) : list event :=
  match result with
  | Some (ValueError error) => [Print error]
  | _ => []
  end.

(** Whether the outcome of the panel call leaves the loop running. *)
Definition survived (result : option exn) : bool :=
  match result with
  | None | Some (ValueError _) => true
  | Some _ => false
  end.

Definition is_log_info (e : event) : Prop :=
  match e with
  | LogInfo _ => True
  | _ => False
  end.

Section Decision.
Variable except_users : list string.
Variable special_limit : dict Z.
Variable limit_number : Z.

(** The two tests of the loop taken together: not exempt, and more
    addresses than the limit in force for the user. *)
Definition over_limit (item : string * dict Z) : bool :=
  negb (str_in (fst item) except_users)
  && (user_limit special_limit limit_number (fst item)
      <? Z.of_nat (List.length (snd item)))%Z.
End Decision.

Section Turn.
Context `{RT : PyRuntime}.
Variable PanelType : Type.
Variable disable_user : PanelType -> UserType -> option exn.
Variable panel_data : PanelType.
Variable except_users : list string.
Variable special_limit : dict Z.
Variable limit_number : Z.

(** The events of one turn of the loop over [IP_STREAKS.items()]. *)
Definition turn_events (item : string * dict Z) : list event :=
  if over_limit except_users special_limit limit_number item
  then (flag_events (fst item) (snd item)
        ++ diagnostics (disable_user panel_data {| name := fst item; ip := [] |}))%list
  else [].
End Turn.

(** ** Sample data *)

Module Sample.
Definition user (user_name : string) (ips : list string) : string * UserType :=
  (user_name, {| name := user_name; ip := ips |}).

(** A poll in which alice is seen at 1.1.1.1, and one in which she is seen
    elsewhere only. *)
Definition seen : dict UserType :=
  [user "alice" ["1.1.1.1"; "2.2.2.2"; "1.1.1.1"]; user "bob" ["9.9.9.9"]].
Definition seen_elsewhere : dict UserType :=
  [user "alice" ["2.2.2.2"]; user "bob" ["9.9.9.9"]].

(** bob is polled but no address is recorded for him. *)
Definition idle : dict UserType := [user "bob" []].

Definition old_streaks : streak_table :=
  [("bob", [("1.1.1.1", 3%Z); ("2.2.2.2", 1%Z)]); ("carol", [("8.8.8.8", 7%Z)])].

(** [n] users with one address each. *)
Definition crowd (n : nat) : dict UserType :=
  map (fun i => user ("user" ++ str_of_nat i) ["10.0.0.1"]) (seq 0 n).

(** alice and bob with four distinct addresses each, carol with six,
    dave with two. *)
Definition busy : dict UserType :=
  [user "alice" ["1.1.1.1"; "1.1.1.2"; "1.1.1.1"; "1.1.1.3"; "1.1.1.4"];
   user "bob" ["2.2.2.1"; "2.2.2.2"; "2.2.2.3"; "2.2.2.4"];
   user "carol" ["3.3.3.1"; "3.3.3.2"; "3.3.3.3"; "3.3.3.4"; "3.3.3.5"; "3.3.3.6"];
   user "dave" ["4.4.4.1"; "4.4.4.2"; "4.4.4.2"]].

(** A fresh process after a poll that saw 120 users. *)
Definition crowded : globals :=
  {| ACTIVE_USERS := crowd 120; IP_STREAKS := [] |}.

Definition limits : config :=
  {| EXCEPT_USERS := Some ["carol"];
     SPECIAL_LIMIT := Some [("alice", 5%Z)];
     GENERAL_LIMIT := Some 3%Z;
     CHECK_INTERVAL := Some 60%Z |}.

(** The same with a general limit of one address. *)
Definition strict : config :=
  {| EXCEPT_USERS := Some ["carol"];
     SPECIAL_LIMIT := Some [("alice", 5%Z)];
     GENERAL_LIMIT := Some 1%Z;
     CHECK_INTERVAL := Some 60%Z |}.

(** A fresh process after a poll that saw alice, bob, carol and dave. *)
Definition polled_busy : globals :=
  {| ACTIVE_USERS := busy; IP_STREAKS := [] |}.

Definition once (ips : list string) : dict Z := map (fun a => (a, 1%Z)) ips.
Definition alice_entry : dict Z := once ["1.1.1.1"; "1.1.1.2"; "1.1.1.3"; "1.1.1.4"].
Definition bob_entry : dict Z := once ["2.2.2.1"; "2.2.2.2"; "2.2.2.3"; "2.2.2.4"].
Definition carol_entry : dict Z :=
  once ["3.3.3.1"; "3.3.3.2"; "3.3.3.3"; "3.3.3.4"; "3.3.3.5"; "3.3.3.6"].
Definition dave_entry : dict Z := once ["4.4.4.1"; "4.4.4.2"].

(** A panel that disables whoever it is asked to, and one that fails with
    a value error for bob. *)
Definition panel_ok (_ : unit) (_ : UserType) : option exn := None.
Definition panel_fails_for_bob (_ : unit) (user : UserType) : option exn :=
  if String.eqb (name user) "bob" then Some (ValueError "bob: 500") else None.

(** Two cycles that both find the busy snapshot and the strict limits. *)
Definition two_cycles : list (surroundings unit) :=
  [{| polled := busy; cycle_config := strict; sleep_config := strict;
      disable_user_now := panel_fails_for_bob |};
   {| polled := busy; cycle_config := strict; sleep_config := strict;
      disable_user_now := panel_ok |}].
End Sample.

(** ** Reading more of a trace *)

(** The texts handed to [logger.warning], in the order of the calls. *)
Fixpoint warned (evs : list event) : list string :=
  match evs with
  | [] => []
  | LogWarning text :: r => text :: warned r
  | _ :: r => warned r
  end.


(** [if not ip_map: continue] passes these entries of the table. *)
Definition has_addresses (kv : string * dict Z) : bool :=
  match snd kv with
  | [] => false
  | _ :: _ => true
  end.

(** What the reducer makes of one entry of the snapshot, and the line it
    logs for it. *)
Definition reduced_entry (kv : string * UserType) : string * list string :=
  (fst kv, unique_ips (ip (snd kv))).

Definition snapshot_line `{PyRuntime} (kv : string * UserType) : event :=
  LogInfo ("User snapshot: " ++ fst kv ++ " -> "
           ++ str_of_list (unique_ips (ip (snd kv)))).

(** The notification [check_users_usage] sends for a user over the limit. *)
Definition warning_text `{PyRuntime} (kv : string * dict Z) : string :=
  "<b>Warning: </b>" ++ warning_message (fst kv) (snd kv).

(** ** telegram_bot/main.py: send_logs

    [check_admin] has returned the chat identifiers; each comes here with
    what the Telegram API does with the message sent to it: it delivers it,
    raises an [Exception], which the loop catches and prints, or raises
    something that is not an [Exception] (a cancellation, an interrupt),
    which the loop lets through. *)

Inductive send_result :=
| Delivered
| SendFailed (error : string)
| Interrupted (what : string).

Inductive bot_event :=
| SendMessage (chat_id : Z) (text : string)
| BotPrint (text : string).

Definition failure_text (admin : Z) (error : string) : string :=
  "Failed to send message to admin " ++ str_of_Z admin ++ ": " ++ error.

Fixpoint send_logs (admins : list (Z * send_result)) (msg : string)
    : list bot_event * option string :=
  match admins with
  | [] => ([], None)
  | (admin, answer) :: rest =>
      match answer with
      | Delivered =>
          let (evs, res) := send_logs rest msg in
          (SendMessage admin msg :: evs, res)
      | SendFailed error =>
          let (evs, res) := send_logs rest msg in
          (SendMessage admin msg :: BotPrint (failure_text admin error) :: evs, res)
      | Interrupted what => ([SendMessage admin msg], Some what)
      end
  end.

(** The calls of [sendMessage] in a trace of the bot, and what it printed. *)
Fixpoint attempts (evs : list bot_event) : list (Z * string) :=
  match evs with
  | [] => []
  | SendMessage chat_id text :: r => (chat_id, text) :: attempts r
  | BotPrint _ :: r => attempts r
  end.

Fixpoint printed (evs : list bot_event) : list string :=
  match evs with
  | [] => []
  | SendMessage _ _ :: r => printed r
  | BotPrint text :: r => text :: printed r
  end.

Definition is_interrupted (answer : send_result) : bool :=
  match answer with
  | Interrupted _ => true
  | _ => false
  end.

Definition failures (admins : list (Z * send_result)) : list string :=
  flat_map (fun a => match snd a with
                     | SendFailed error => [failure_text (fst a) error]
                     | _ => []
                     end) admins.

(** The order [sorted(..., reverse=True)] puts items in. *)
Definition descending {A : Type} (key : A -> Z) (x y : A) : Prop :=
  (key y <= key x)%Z.

(** Every streak of the table is at least 1 and at most [k]. *)
Definition bounded_by (k : Z) (t : streak_table) : Prop :=
  forall u a n, streak t u a = Some n -> (1 <= n <= k)%Z.

(** ** More sample data *)

Module Cases.
(** A panel that cannot be reached when it is asked about bob. *)
Definition panel_down_for_bob (_ : unit) (user : UserType) : option exn :=
  if String.eqb (name user) "bob" then Some (OtherError "timeout") else None.

(** Three admins: the second has blocked the bot. *)
Definition admins : list (Z * send_result) :=
  [(11%Z, Delivered); (22%Z, SendFailed "Forbidden"); (33%Z, Delivered)].

(** Two tables with the same users and as many addresses for each, but
    other addresses and other streaks. *)
Definition table_a : streak_table :=
  [("bob", [("2.2.2.1", 9%Z); ("2.2.2.2", 1%Z)]); ("dave", [("4.4.4.1", 1%Z)])].
Definition table_b : streak_table :=
  [("bob", [("7.7.7.7", 1%Z); ("8.8.8.8", 1%Z)]); ("dave", [("9.9.9.9", 40%Z)])].

(** A fresh process after a poll that saw 119 users, whose report has 120
    items with the summary line. *)
Definition crowded_119 : globals :=
  {| ACTIVE_USERS := Sample.crowd 119; IP_STREAKS := [] |}.


End Cases.

(** * Facts *)

(** ** Dictionaries *)

Module PyDictFacts.
Import PyDict.
Section Facts.
Variable V : Type.
Implicit Types (d : dict V) (k : string) (v : V).

Lemma get_set d k v k' :
  get (set d k v) k' = if String.eqb k' k then Some v else get d k'.
Proof.
  induction d as [|[k0 v0] r IH]; simpl.
  - reflexivity.
  - destruct (String.eqb_spec k k0) as [->|Hk]; simpl.
    + destruct (String.eqb_spec k' k0); reflexivity.
    + rewrite IH. destruct (String.eqb_spec k' k0) as [->|Hk'];
        [|reflexivity].
      destruct (String.eqb_spec k0 k); [congruence|reflexivity].
Qed.

Lemma get_set_eq d k v : get (set d k v) k = Some v.
Proof. rewrite get_set, String.eqb_refl. reflexivity. Qed.

Lemma get_set_ne d k v k' : k' <> k -> get (set d k v) k' = get d k'.
Proof.
  intros Hne. rewrite get_set.
  destruct (String.eqb_spec k' k); [contradiction|reflexivity].
Qed.

Lemma get_None d k : get d k = None <-> ~ In k (keys d).
Proof.
  induction d as [|[k0 v0] r IH]; simpl.
  - tauto.
  - destruct (String.eqb_spec k k0) as [->|Hk].
    + split; [discriminate | intros H; exfalso; apply H; now left].
    + rewrite IH. split; [intros H [E|E]; [congruence|auto] | tauto].
Qed.

Lemma get_Some_In d k v : get d k = Some v -> In (k, v) d.
Proof.
  induction d as [|[k0 v0] r IH]; simpl; [discriminate|].
  destruct (String.eqb_spec k k0) as [->|Hk].
  - intros [= ->]. now left.
  - intros H. right. auto.
Qed.

Lemma In_get d k v : wf d -> In (k, v) d -> get d k = Some v.
Proof.
  unfold wf. induction d as [|[k0 v0] r IH]; simpl; [tauto|].
  intros Hnd [E|E].
  - injection E as -> ->. now rewrite String.eqb_refl.
  - inversion Hnd as [|? ? Hnotin Hnd']; subst.
    destruct (String.eqb_spec k k0) as [->|Hk]; [|auto].
    exfalso. apply Hnotin. change k0 with (fst (k0, v)).
    now apply in_map.
Qed.

Lemma mem_In d k : mem d k = true <-> In k (keys d).
Proof.
  unfold mem. destruct (get d k) eqn:E.
  - split; [intros _|reflexivity].
    apply get_Some_In in E. change k with (fst (k, v)). now apply in_map.
  - split; [discriminate|]. intros H. now apply get_None in E.
Qed.

Lemma mem_false d k : mem d k = false <-> get d k = None.
Proof. unfold mem. destruct (get d k); split; congruence. Qed.

Lemma keys_set d k v :
  keys (set d k v) = if mem d k then keys d else (keys d ++ [k])%list.
Proof.
  unfold mem. induction d as [|[k0 v0] r IH]; simpl; [reflexivity|].
  destruct (String.eqb_spec k k0) as [->|Hk]; simpl; [reflexivity|].
  rewrite IH. now destruct (get r k).
Qed.

Lemma In_keys_set d k v k' :
  In k' (keys (set d k v)) <-> k' = k \/ In k' (keys d).
Proof.
  rewrite keys_set. destruct (mem d k) eqn:E.
  - apply mem_In in E. split; [now right | intros [->|H]; assumption].
  - rewrite in_app_iff. simpl. intuition.
Qed.

Lemma wf_set d k v : wf d -> wf (set d k v).
Proof.
  unfold wf. rewrite keys_set. destruct (mem d k) eqn:E; [tauto|].
  intros Hnd. apply NoDup_app; [assumption | repeat constructor; simpl; tauto |].
  intros a Ha [<-|[]]. apply mem_false, get_None in E. contradiction.
Qed.

Lemma In_keys_del d k k' : In k' (keys (del d k)) -> In k' (keys d).
Proof.
  induction d as [|[k0 v0] r IH]; simpl; [tauto|].
  destruct (String.eqb_spec k k0); simpl; intuition.
Qed.

Lemma wf_del d k : wf d -> wf (del d k).
Proof.
  unfold wf. induction d as [|[k0 v0] r IH]; simpl; [tauto|].
  intros Hnd. inversion Hnd as [|? ? Hnotin Hnd']; subst.
  destruct (String.eqb_spec k k0); [assumption|]. simpl.
  constructor; [|auto]. intros H. apply Hnotin. eapply In_keys_del, H.
Qed.

Lemma get_del_ne d k k' : k' <> k -> get (del d k) k' = get d k'.
Proof.
  intros Hne. induction d as [|[k0 v0] r IH]; simpl; [reflexivity|].
  destruct (String.eqb_spec k k0) as [->|Hk]; simpl.
  - destruct (String.eqb_spec k' k0); [contradiction|reflexivity].
  - now rewrite IH.
Qed.

Lemma get_del_eq d k : wf d -> get (del d k) k = None.
Proof.
  unfold wf. induction d as [|[k0 v0] r IH]; simpl; [reflexivity|].
  intros Hnd. inversion Hnd as [|? ? Hnotin Hnd']; subst.
  destruct (String.eqb_spec k k0) as [->|Hk]; simpl.
  - now apply get_None.
  - destruct (String.eqb_spec k k0); [contradiction|auto].
Qed.

Lemma get_del d k k' :
  wf d -> get (del d k) k' = if String.eqb k' k then None else get d k'.
Proof.
  intros Hwf. destruct (String.eqb_spec k' k) as [->|Hne].
  - now apply get_del_eq.
  - now apply get_del_ne.
Qed.
End Facts.
End PyDictFacts.

(** ** Membership and de-duplication *)

Lemma str_in_In (x : string) (xs : list string) : str_in x xs = true <-> In x xs.
Proof.
  induction xs as [|y ys IH]; simpl.
  - split; [discriminate | tauto].
  - destruct (String.eqb_spec x y) as [->|Hne].
    + split; auto.
    + rewrite IH. split; [auto | intros [E|E]; [congruence | exact E]].
Qed.

Lemma str_in_false (x : string) (xs : list string) : str_in x xs = false <-> ~ In x xs.
Proof.
  rewrite <- str_in_In. destruct (str_in x xs); split; congruence.
Qed.

Lemma str_in_ext (s1 s2 : list string) (x : string) :
  (forall y, In y s1 <-> In y s2) -> str_in x s1 = str_in x s2.
Proof.
  intros H. destruct (str_in x s2) eqn:E.
  - apply str_in_In, H, str_in_In, E.
  - apply str_in_false. intros Hin. apply H, str_in_In in Hin. congruence.
Qed.

Lemma mem_str_in {V : Type} (d : dict V) (k : string) :
  PyDict.mem d k = str_in k (PyDict.keys d).
Proof.
  destruct (str_in k (PyDict.keys d)) eqn:E.
  - apply PyDictFacts.mem_In, str_in_In, E.
  - apply PyDictFacts.mem_false, PyDictFacts.get_None, str_in_false, E.
Qed.

Lemma first_seen_ext (xs s1 s2 : list string) :
  (forall y, In y s1 <-> In y s2) -> first_seen s1 xs = first_seen s2 xs.
Proof.
  revert s1 s2. induction xs as [|x r IH]; intros s1 s2 H; simpl; [reflexivity|].
  rewrite (str_in_ext s1 s2 x H). destruct (str_in x s2).
  - now apply IH.
  - f_equal. apply IH. intros y. simpl. rewrite H. tauto.
Qed.

Lemma fromkeys_keys (xs : list string) (d : dict unit) :
  PyDict.keys (fold_left (fun d k => PyDict.set d k tt) xs d)
  = (PyDict.keys d ++ first_seen (PyDict.keys d) xs)%list.
Proof.
  revert d. induction xs as [|x r IH]; intros d; simpl.
  - now rewrite app_nil_r.
  - rewrite IH, PyDictFacts.keys_set, mem_str_in.
    destruct (str_in x (PyDict.keys d)); [reflexivity|].
    rewrite <- app_assoc. simpl. do 2 f_equal. apply first_seen_ext.
    intros y. rewrite in_app_iff. simpl. tauto.
Qed.

Lemma unique_ips_first_seen (xs : list string) : unique_ips xs = first_seen [] xs.
Proof. unfold unique_ips, fromkeys. now rewrite fromkeys_keys. Qed.

Lemma first_seen_In (xs seen : list string) (x : string) :
  In x (first_seen seen xs) <-> In x xs /\ ~ In x seen.
Proof.
  revert seen. induction xs as [|y r IH]; intros seen; simpl; [tauto|].
  destruct (str_in y seen) eqn:E.
  - apply str_in_In in E. rewrite IH. split; [tauto|].
    intros [[->|H] Hn]; [contradiction|tauto].
  - apply str_in_false in E. simpl. rewrite IH. simpl.
    split.
    + intros [->|[H Hn]]; [tauto|]. split; [tauto|]. intros Hs. apply Hn. now right.
    + intros [[->|H] Hn]; [now left|].
      destruct (String.eqb_spec y x) as [->|Hne]; [now left|right].
      split; [assumption|]. intros [?|?]; [congruence|contradiction].
Qed.

Lemma first_seen_NoDup (xs seen : list string) : NoDup (first_seen seen xs).
Proof.
  revert seen. induction xs as [|y r IH]; intros seen; simpl; [constructor|].
  destruct (str_in y seen); [apply IH|].
  constructor; [|apply IH]. rewrite first_seen_In. simpl. tauto.
Qed.

Lemma filter_differs_idem (x : string) (xs : list string) :
  filter (differs_from x) (filter (differs_from x) xs) = filter (differs_from x) xs.
Proof.
  induction xs as [|y r IH]; simpl; [reflexivity|].
  destruct (differs_from x y) eqn:E; simpl; [rewrite E|]; now rewrite IH.
Qed.

Lemma first_seen_cons_seen (xs seen : list string) (x : string) :
  first_seen (x :: seen) xs = filter (differs_from x) (first_seen seen xs).
Proof.
  revert seen. induction xs as [|y r IH]; intros seen; [reflexivity|].
  cbn [first_seen str_in].
  destruct (String.eqb_spec y x) as [->|Hne].
  - destruct (str_in x seen); [apply IH|]. cbn [filter].
    unfold differs_from at 1. rewrite String.eqb_refl. cbn [negb].
    rewrite !IH. now rewrite filter_differs_idem.
  - destruct (str_in y seen); [apply IH|]. cbn [filter].
    unfold differs_from at 1.
    destruct (String.eqb_spec y x) as [|_]; [contradiction|]. cbn [negb].
    f_equal. rewrite <- IH. apply first_seen_ext. intros z. simpl. tauto.
Qed.

Lemma unique_ips_cons (x : string) (xs : list string) :
  unique_ips (x :: xs) = x :: filter (differs_from x) (unique_ips xs).
Proof.
  rewrite !unique_ips_first_seen. simpl. now rewrite first_seen_cons_seen.
Qed.

Lemma unique_ips_In (xs : list string) (x : string) : In x (unique_ips xs) <-> In x xs.
Proof. rewrite unique_ips_first_seen, first_seen_In. simpl. tauto. Qed.

Lemma unique_ips_NoDup (xs : list string) : NoDup (unique_ips xs).
Proof. rewrite unique_ips_first_seen. apply first_seen_NoDup. Qed.

(** The runtime used where a statement is run on an example: a set is
    iterated in first-insertion order and a string is quoted with single
    quotes. *)
#[local] Instance insertion_order_runtime : PyRuntime := {|
  set_iter := unique_ips;
  set_iter_NoDup := unique_ips_NoDup;
  set_iter_In := unique_ips_In;
  repr := fun s => "'" ++ s ++ "'"
|}.

(** ** The streak table under one update *)

Section StreakFacts.
Context `{RT : PyRuntime}.
Import PyDictFacts.

Lemma table_wf_nil : table_wf [].
Proof. split; [constructor | discriminate]. Qed.

Lemma table_wf_set t u m : table_wf t -> PyDict.wf m -> table_wf (PyDict.set t u m).
Proof.
  intros [Ht Hm] Hwf. split; [now apply wf_set|].
  intros u' m'. rewrite get_set. destruct (String.eqb u' u); [|apply Hm].
  now intros [= <-].
Qed.

Lemma table_wf_del t u : table_wf t -> table_wf (PyDict.del t u).
Proof.
  intros [Ht Hm]. split; [now apply wf_del|].
  intros u' m'. rewrite get_del by assumption.
  destruct (String.eqb u' u); [discriminate|apply Hm].
Qed.

Lemma table_wf_entry t u : table_wf t -> PyDict.wf (entry t u).
Proof.
  intros [_ Hm]. unfold entry. destruct (PyDict.get t u) eqn:E; simpl.
  - eapply Hm, E.
  - constructor.
Qed.

Lemma getitem_fst t u : fst (getitem t u) = entry t u.
Proof. unfold getitem, entry. now destruct (PyDict.get t u). Qed.

Lemma getitem_get t u u' :
  PyDict.get (snd (getitem t u)) u'
  = if String.eqb u' u then Some (entry t u) else PyDict.get t u'.
Proof.
  unfold getitem, entry. destruct (PyDict.get t u) eqn:E; simpl.
  - destruct (String.eqb_spec u' u) as [->|]; [assumption|reflexivity].
  - apply get_set.
Qed.

Lemma getitem_wf t u : table_wf t -> table_wf (snd (getitem t u)).
Proof.
  intros H. unfold getitem. destruct (PyDict.get t u); simpl; [assumption|].
  apply table_wf_set; [assumption|constructor].
Qed.

Lemma bump_get u t a u' :
  PyDict.get (bump u t a) u'
  = if String.eqb u' u
    then Some (PyDict.set (entry t u) a (next_streak (PyDict.get (entry t u) a)))
    else PyDict.get t u'.
Proof.
  unfold bump.
  destruct (getitem t u) as [m t1] eqn:E1.
  destruct (getitem t1 u) as [m' t2] eqn:E2.
  assert (Hm : m = entry t u) by (rewrite <- getitem_fst, E1; reflexivity).
  assert (Ht1 : t1 = snd (getitem t u)) by (rewrite E1; reflexivity).
  assert (Hm' : m' = entry t u).
  { replace m' with (fst (getitem t1 u)) by (rewrite E2; reflexivity).
    rewrite getitem_fst. unfold entry at 1.
    rewrite Ht1, getitem_get, String.eqb_refl. reflexivity. }
  assert (Ht2 : t2 = snd (getitem t1 u)) by (rewrite E2; reflexivity).
  rewrite get_set. destruct (String.eqb_spec u' u) as [->|Hne].
  - subst m m'. reflexivity.
  - rewrite Ht2, getitem_get, Ht1, getitem_get.
    destruct (String.eqb_spec u' u); [contradiction|reflexivity].
Qed.

Lemma bump_wf u t a : table_wf t -> table_wf (bump u t a).
Proof.
  intros H. unfold bump.
  destruct (getitem t u) as [m t1] eqn:E1.
  destruct (getitem t1 u) as [m' t2] eqn:E2.
  assert (H1 : table_wf t1).
  { replace t1 with (snd (getitem t u)) by (rewrite E1; reflexivity).
    now apply getitem_wf. }
  apply table_wf_set.
  - replace t2 with (snd (getitem t1 u)) by (rewrite E2; reflexivity).
    now apply getitem_wf.
  - apply wf_set.
    replace m' with (fst (getitem t1 u)) by (rewrite E2; reflexivity).
    rewrite getitem_fst. now apply table_wf_entry.
Qed.

Lemma del_ip_get u t a u' :
  PyDict.get (del_ip u t a) u'
  = if String.eqb u' u then Some (PyDict.del (entry t u) a) else PyDict.get t u'.
Proof.
  unfold del_ip. destruct (getitem t u) as [m t1] eqn:E1.
  assert (Hm : m = entry t u) by (rewrite <- getitem_fst, E1; reflexivity).
  assert (Ht1 : t1 = snd (getitem t u)) by (rewrite E1; reflexivity).
  rewrite get_set. destruct (String.eqb_spec u' u) as [->|Hne].
  - now subst m.
  - rewrite Ht1, getitem_get.
    destruct (String.eqb_spec u' u); [contradiction|reflexivity].
Qed.

Lemma del_ip_wf u t a : table_wf t -> table_wf (del_ip u t a).
Proof.
  intros H. unfold del_ip. destruct (getitem t u) as [m t1] eqn:E1.
  apply table_wf_set.
  - replace t1 with (snd (getitem t u)) by (rewrite E1; reflexivity).
    now apply getitem_wf.
  - apply wf_del.
    replace m with (fst (getitem t u)) by (rewrite E1; reflexivity).
    rewrite getitem_fst. now apply table_wf_entry.
Qed.

Lemma streak_entry t u a : streak t u a = PyDict.get (entry t u) a.
Proof. unfold streak, entry. now destruct (PyDict.get t u). Qed.

Lemma entry_of_get t u m : PyDict.get t u = Some m -> entry t u = m.
Proof. unfold entry. now intros ->. Qed.

Lemma entry_ext t t' u : PyDict.get t' u = PyDict.get t u -> entry t' u = entry t u.
Proof. unfold entry. now intros ->. Qed.

Lemma str_in_cons x a r : str_in x (a :: r) = if String.eqb x a then true else str_in x r.
Proof. reflexivity. Qed.

Lemma fold_bump_other u ips t u' :
  u' <> u -> PyDict.get (fold_left (bump u) ips t) u' = PyDict.get t u'.
Proof.
  intros Hne. revert t. induction ips as [|a r IH]; intros t; simpl; [reflexivity|].
  rewrite IH, bump_get. destruct (String.eqb_spec u' u); [contradiction|reflexivity].
Qed.

Lemma fold_bump_wf u ips t : table_wf t -> table_wf (fold_left (bump u) ips t).
Proof.
  revert t. induction ips as [|a r IH]; intros t H; simpl; [assumption|].
  apply IH. now apply bump_wf.
Qed.

Lemma fold_bump_entry u ips t a :
  NoDup ips ->
  PyDict.get (entry (fold_left (bump u) ips t) u) a
  = if str_in a ips then Some (next_streak (PyDict.get (entry t u) a))
    else PyDict.get (entry t u) a.
Proof.
  intros Hnd. revert t. induction Hnd as [|b r Hb Hnd IH]; intros t; simpl fold_left.
  - reflexivity.
  - rewrite IH, str_in_cons.
    assert (E : entry (bump u t b) u
                = PyDict.set (entry t u) b (next_streak (PyDict.get (entry t u) b))).
    { apply entry_of_get. now rewrite bump_get, String.eqb_refl. }
    rewrite E, get_set. destruct (String.eqb_spec a b) as [->|Hne]; [|reflexivity].
    apply str_in_false in Hb. now rewrite Hb.
Qed.

Lemma fold_del_ip_other u ks t u' :
  u' <> u -> PyDict.get (fold_left (del_ip u) ks t) u' = PyDict.get t u'.
Proof.
  intros Hne. revert t. induction ks as [|a r IH]; intros t; simpl; [reflexivity|].
  rewrite IH, del_ip_get. destruct (String.eqb_spec u' u); [contradiction|reflexivity].
Qed.

Lemma fold_del_ip_wf u ks t : table_wf t -> table_wf (fold_left (del_ip u) ks t).
Proof.
  revert t. induction ks as [|a r IH]; intros t H; simpl; [assumption|].
  apply IH. now apply del_ip_wf.
Qed.

Lemma fold_del_ip_present u ks t :
  PyDict.get t u <> None -> PyDict.get (fold_left (del_ip u) ks t) u <> None.
Proof.
  revert t. induction ks as [|a r IH]; intros t H; simpl; [assumption|].
  apply IH. rewrite del_ip_get, String.eqb_refl. discriminate.
Qed.

Lemma fold_del_ip_entry u ks t a :
  table_wf t ->
  PyDict.get (entry (fold_left (del_ip u) ks t) u) a
  = if str_in a ks then None else PyDict.get (entry t u) a.
Proof.
  revert t. induction ks as [|b r IH]; intros t Hwf; simpl fold_left.
  - reflexivity.
  - rewrite IH by now apply del_ip_wf. rewrite str_in_cons.
    assert (E : entry (del_ip u t b) u = PyDict.del (entry t u) b).
    { apply entry_of_get. now rewrite del_ip_get, String.eqb_refl. }
    rewrite E, get_del by now apply table_wf_entry.
    destruct (String.eqb a b); [|reflexivity]. now destruct (str_in a r).
Qed.

Lemma str_in_filter (P : string -> bool) a ks :
  str_in a (filter P ks) = str_in a ks && P a.
Proof.
  induction ks as [|b r IH]; simpl; [reflexivity|].
  destruct (P b) eqn:Eb; simpl; rewrite IH;
    destruct (String.eqb_spec a b) as [->|Hne]; simpl; try reflexivity.
  - now rewrite Eb.
  - rewrite Eb. now rewrite andb_false_r.
Qed.

Lemma str_in_keys_get {V : Type} (d : dict V) k :
  str_in k (PyDict.keys d) = false -> PyDict.get d k = None.
Proof. intros H. now apply get_None, str_in_false. Qed.

Lemma str_in_set_iter a ips : str_in a (set_iter ips) = str_in a ips.
Proof. apply str_in_ext. intros y. apply set_iter_In. Qed.

Lemma update_user_other t u ips u' :
  u' <> u -> PyDict.get (update_user t (u, ips)) u' = PyDict.get t u'.
Proof.
  intros Hne. unfold update_user.
  destruct (getitem (fold_left (bump u) (set_iter ips) t) u) as [m t2] eqn:E.
  rewrite fold_del_ip_other by assumption.
  replace t2 with (snd (getitem (fold_left (bump u) (set_iter ips) t) u))
    by (rewrite E; reflexivity).
  rewrite getitem_get. destruct (String.eqb_spec u' u); [contradiction|].
  now apply fold_bump_other.
Qed.

Lemma update_user_wf t item : table_wf t -> table_wf (update_user t item).
Proof.
  intros H. destruct item as [u ips]. unfold update_user.
  destruct (getitem (fold_left (bump u) (set_iter ips) t) u) as [m t2] eqn:E.
  apply fold_del_ip_wf.
  replace t2 with (snd (getitem (fold_left (bump u) (set_iter ips) t) u))
    by (rewrite E; reflexivity).
  now apply getitem_wf, fold_bump_wf.
Qed.

Lemma update_user_present t u ips : PyDict.get (update_user t (u, ips)) u <> None.
Proof.
  unfold update_user.
  destruct (getitem (fold_left (bump u) (set_iter ips) t) u) as [m t2] eqn:E.
  apply fold_del_ip_present.
  replace t2 with (snd (getitem (fold_left (bump u) (set_iter ips) t) u))
    by (rewrite E; reflexivity).
  rewrite getitem_get, String.eqb_refl. discriminate.
Qed.

Lemma update_user_entry t u ips a :
  table_wf t ->
  PyDict.get (entry (update_user t (u, ips)) u) a
  = if str_in a ips then Some (next_streak (streak t u a)) else None.
Proof.
  intros Hwf. unfold update_user.
  set (t1 := fold_left (bump u) (set_iter ips) t).
  destruct (getitem t1 u) as [m t2] eqn:E.
  assert (Hm : m = entry t1 u) by (rewrite <- getitem_fst, E; reflexivity).
  assert (Ht2 : t2 = snd (getitem t1 u)) by (rewrite E; reflexivity).
  assert (Hwf1 : table_wf t1) by now apply fold_bump_wf.
  assert (Hwf2 : table_wf t2) by (rewrite Ht2; now apply getitem_wf).
  assert (He2 : entry t2 u = m).
  { apply entry_of_get. rewrite Ht2, getitem_get, String.eqb_refl. now subst m. }
  rewrite fold_del_ip_entry by assumption.
  rewrite str_in_filter, He2.
  assert (Hget : PyDict.get m a
                 = if str_in a ips then Some (next_streak (streak t u a))
                   else PyDict.get (entry t u) a).
  { rewrite Hm. unfold t1. rewrite fold_bump_entry by apply set_iter_NoDup.
    now rewrite str_in_set_iter, streak_entry. }
  destruct (str_in a ips) eqn:Ea; simpl.
  - now rewrite andb_false_r.
  - rewrite andb_true_r. destruct (str_in a (PyDict.keys m)) eqn:Ek; [reflexivity|].
    now apply str_in_keys_get.
Qed.

Lemma fold_update_absent ca t u :
  PyDict.get ca u = None -> PyDict.get (fold_left update_user ca t) u = PyDict.get t u.
Proof.
  revert t. induction ca as [|[u0 ips0] r IH]; intros t; simpl; [reflexivity|].
  destruct (String.eqb_spec u u0) as [->|Hne]; [discriminate|].
  intros H. rewrite IH by assumption. now apply update_user_other.
Qed.

Lemma fold_update_wf ca t : table_wf t -> table_wf (fold_left update_user ca t).
Proof.
  revert t. induction ca as [|item r IH]; intros t H; simpl; [assumption|].
  apply IH. now apply update_user_wf.
Qed.

Lemma fold_update_present ca t u ips :
  table_wf t -> PyDict.wf ca -> PyDict.get ca u = Some ips ->
  PyDict.get (fold_left update_user ca t) u <> None
  /\ forall a, PyDict.get (entry (fold_left update_user ca t) u) a
               = if str_in a ips then Some (next_streak (streak t u a)) else None.
Proof.
  intros Hwf Hca. revert t Hwf.
  induction ca as [|[u0 ips0] r IH]; intros t Hwf; cbn [fold_left PyDict.get];
    [discriminate|].
  inversion Hca as [|? ? Hnotin Hr]; subst.
  destruct (String.eqb_spec u u0) as [->|Hne].
  - intros [= ->].
    assert (E : PyDict.get (fold_left update_user r (update_user t (u0, ips))) u0
                = PyDict.get (update_user t (u0, ips)) u0).
    { apply fold_update_absent. now apply get_None. }
    split.
    + rewrite E. apply update_user_present.
    + intros a. rewrite (entry_ext _ _ _ E). now apply update_user_entry.
  - intros H.
    destruct (IH Hr (update_user t (u0, ips0)) (update_user_wf _ Hwf) H) as [Hp He].
    split; [assumption|]. intros a. rewrite He.
    unfold streak. now rewrite update_user_other.
Qed.

Lemma fold_del_get {V : Type} (ks : list string) (d : dict V) (k : string) :
  PyDict.wf d ->
  PyDict.get (fold_left (@PyDict.del V) ks d) k
  = if str_in k ks then None else PyDict.get d k.
Proof.
  revert d. induction ks as [|b r IH]; intros d Hwf; simpl fold_left.
  - reflexivity.
  - rewrite IH by now apply wf_del. rewrite str_in_cons, get_del by assumption.
    destruct (String.eqb k b); [|reflexivity]. now destruct (str_in k r).
Qed.

Lemma fold_del_table_wf ks t :
  table_wf t -> table_wf (fold_left (@PyDict.del (dict Z)) ks t).
Proof.
  revert t. induction ks as [|b r IH]; intros t H; simpl; [assumption|].
  apply IH. now apply table_wf_del.
Qed.

Lemma update_wf t ca : table_wf t -> table_wf (_update_ip_streaks t ca).
Proof.
  intros H. unfold _update_ip_streaks. now apply fold_del_table_wf, fold_update_wf.
Qed.

(** After the update the table has an entry for exactly the users of the
    snapshot. *)
Lemma update_get t ca u :
  table_wf t ->
  PyDict.get (_update_ip_streaks t ca) u
  = if PyDict.mem ca u then PyDict.get (fold_left update_user ca t) u else None.
Proof.
  intros Hwf. unfold _update_ip_streaks.
  rewrite fold_del_get by now apply fold_update_wf.
  rewrite str_in_filter. destruct (PyDict.mem ca u) eqn:E; simpl.
  - now rewrite andb_false_r.
  - rewrite andb_true_r.
    destruct (str_in u (PyDict.keys (fold_left update_user ca t))) eqn:Ek;
      [reflexivity|]. now apply str_in_keys_get.
Qed.

Lemma update_absent t ca u :
  table_wf t -> PyDict.get ca u = None ->
  PyDict.get (_update_ip_streaks t ca) u = None.
Proof.
  intros Hwf H. rewrite update_get by assumption.
  apply mem_false in H. now rewrite H.
Qed.

Lemma update_present t ca u ips :
  table_wf t -> PyDict.wf ca -> PyDict.get ca u = Some ips ->
  exists m, PyDict.get (_update_ip_streaks t ca) u = Some m
    /\ forall a, PyDict.get m a
                 = if str_in a ips then Some (next_streak (streak t u a)) else None.
Proof.
  intros Hwf Hca H.
  destruct (fold_update_present u Hwf Hca H) as [Hp He].
  assert (Hmem : PyDict.mem ca u = true) by (unfold PyDict.mem; now rewrite H).
  destruct (PyDict.get (fold_left update_user ca t) u) as [m|] eqn:E; [|congruence].
  exists m. split.
  - now rewrite update_get, Hmem by assumption.
  - intros a. rewrite <- He. now rewrite (entry_of_get _ _ E).
Qed.

(** One cycle's effect on the streak of an address. *)
Lemma update_streak t ca u a :
  table_wf t -> PyDict.wf ca ->
  streak (_update_ip_streaks t ca) u a
  = match PyDict.get ca u with
    | Some ips => if str_in a ips then Some (next_streak (streak t u a)) else None
    | None => None
    end.
Proof.
  intros Hwf Hca. destruct (PyDict.get ca u) as [ips|] eqn:E.
  - destruct (update_present u Hwf Hca E) as (m & Hm & Hget).
    unfold streak at 1. now rewrite Hm, Hget.
  - unfold streak. now rewrite update_absent.
Qed.

(** ** The snapshot reducer *)

Lemma snapshot_fold_wf active ks acc :
  PyDict.wf (fst acc) -> PyDict.wf (fst (fold_left (snapshot_user active) ks acc)).
Proof.
  revert acc. induction ks as [|k r IH]; intros acc H; simpl; [assumption|].
  apply IH. unfold snapshot_user. destruct (PyDict.get active k); [|assumption].
  simpl. now apply wf_set.
Qed.

Lemma snapshot_fold_get active ks acc u :
  (forall k, In k ks -> PyDict.get active k <> None) ->
  PyDict.get (fst (fold_left (snapshot_user active) ks acc)) u
  = if str_in u ks then option_map reduced (PyDict.get active u)
    else PyDict.get (fst acc) u.
Proof.
  revert acc. induction ks as [|k r IH]; intros acc Hks; simpl fold_left.
  - reflexivity.
  - rewrite IH by (intros k' Hk'; apply Hks; now right).
    rewrite str_in_cons. unfold snapshot_user.
    destruct (PyDict.get active k) as [data|] eqn:E.
    + cbn [fst]. rewrite get_set.
      destruct (String.eqb_spec u k) as [->|Hne]; [|reflexivity].
      rewrite E. now destruct (str_in k r).
    + exfalso. apply (Hks k); [now left|assumption].
Qed.

Lemma check_ip_used_fst active :
  fst (check_ip_used active)
  = fst (fold_left (snapshot_user active) (PyDict.keys active) ([], [])).
Proof.
  unfold check_ip_used.
  now destruct (fold_left (snapshot_user active) (PyDict.keys active) ([], [])).
Qed.

Lemma check_ip_used_wf active : PyDict.wf (fst (check_ip_used active)).
Proof. rewrite check_ip_used_fst. apply snapshot_fold_wf. constructor. Qed.

Lemma check_ip_used_get active u :
  PyDict.get (fst (check_ip_used active)) u
  = option_map reduced (PyDict.get active u).
Proof.
  rewrite check_ip_used_fst, snapshot_fold_get.
  - destruct (str_in u (PyDict.keys active)) eqn:E; [reflexivity|].
    apply str_in_keys_get in E. now rewrite E.
  - intros k Hk E. now apply get_None in E.
Qed.

(** ** Consecutive cycles *)

Lemma cycle_streak t snap u a :
  table_wf t ->
  streak (_update_ip_streaks t (fst (check_ip_used snap))) u a
  = if is_active snap u a then Some (next_streak (streak t u a)) else None.
Proof.
  intros Hwf. rewrite update_streak by (assumption || apply check_ip_used_wf).
  unfold is_active. destruct (PyDict.get (fst (check_ip_used snap)) u); reflexivity.
Qed.

Lemma streaks_after_wf t snaps : table_wf t -> table_wf (streaks_after t snaps).
Proof.
  revert t. induction snaps as [|s r IH]; intros t H; simpl; [assumption|].
  apply IH. now apply update_wf.
Qed.

Lemma streaks_after_app t xs ys :
  streaks_after t (xs ++ ys) = streaks_after (streaks_after t xs) ys.
Proof. apply fold_left_app. Qed.

Lemma streaks_after_active t snaps u a :
  table_wf t -> snaps <> [] ->
  Forall (fun s => is_active s u a = true) snaps ->
  streak (streaks_after t snaps) u a
  = Some (get_default (streak t u a) 0 + Z.of_nat (List.length snaps))%Z.
Proof.
  intros Hwf Hne Hall. revert t Hwf Hne.
  induction Hall as [|s r Hs Hall IH]; intros t Hwf Hne; [congruence|].
  cbn [streaks_after fold_left].
  pose proof (cycle_streak s u a Hwf) as Hstep. rewrite Hs in Hstep.
  destruct r as [|s' r'].
  - cbn [fold_left List.length]. rewrite Hstep. unfold next_streak. f_equal.
  - fold (streaks_after (_update_ip_streaks t (fst (check_ip_used s))) (s' :: r')).
    rewrite IH by (try apply update_wf; try assumption; discriminate).
    rewrite Hstep. unfold next_streak. cbn [get_default List.length]. f_equal. lia.
Qed.

End StreakFacts.

(** ** Chunks of fifty *)

Section ChunkFacts.
Variable A : Type.
Implicit Types xs ys : list A.

Lemma slice_fifty xs i : slice xs i (i + 50) = firstn 50 (skipn i xs).
Proof. unfold slice. f_equal. lia. Qed.

Lemma range0_nil : range0 0 50 = [].
Proof. reflexivity. Qed.

Lemma range0_short n : 0 < n <= 50 -> range0 n 50 = [0].
Proof.
  intros H. unfold range0.
  replace ((n + 50 - 1) / 50) with 1; [reflexivity|].
  apply Nat.div_unique with (r := n - 1); lia.
Qed.

Lemma range0_step n : range0 (50 + n) 50 = 0 :: map (fun i => 50 + i) (range0 n 50).
Proof.
  unfold range0.
  replace (50 + n + 50 - 1) with ((n + 50 - 1) + 1 * 50) by lia.
  rewrite Nat.div_add by discriminate. rewrite Nat.add_1_r.
  cbn [seq map]. f_equal. rewrite <- seq_shift, !map_map.
  apply map_ext. intros q. lia.
Qed.
End ChunkFacts.

Lemma chunks_nil : chunks [] = [].
Proof. reflexivity. Qed.

Lemma chunks_short (xs : list string) :
  0 < List.length xs <= 50 -> chunks xs = [xs].
Proof.
  intros H. unfold chunks. rewrite range0_short by assumption.
  cbn [map]. rewrite slice_fifty. cbn [skipn]. f_equal.
  apply firstn_all2. lia.
Qed.

Lemma chunks_app (xs ys : list string) :
  List.length xs = 50 -> chunks (xs ++ ys)%list = xs :: chunks ys.
Proof.
  intros H. unfold chunks. rewrite length_app, H, range0_step.
  cbn [map]. f_equal.
  - rewrite slice_fifty. cbn [skipn]. rewrite firstn_app, <- H, firstn_all.
    replace (List.length xs - List.length xs) with 0 by lia.
    cbn [firstn]. apply app_nil_r.
  - rewrite map_map. apply map_ext. intros i. rewrite !slice_fifty. f_equal.
    rewrite skipn_app, <- H.
    replace (List.length xs + i - List.length xs) with i by lia.
    rewrite (skipn_all2 xs) by lia. reflexivity.
Qed.

(** Fifty at a time, then what is left. *)
Lemma chunks_sizes (q : nat) : forall (xs : list string) (r : nat),
  List.length xs = q * 50 + r -> r < 50 ->
  map (@List.length string) (chunks xs)
  = (repeat 50 q ++ if (r =? 0)%nat then [] else [r])%list
  /\ List.concat (chunks xs) = xs.
Proof.
  induction q as [|q IH]; intros xs r Hlen Hr.
  - cbn [repeat app]. destruct (Nat.eqb_spec r 0) as [->|Hne].
    + destruct xs; [|discriminate]. split; reflexivity.
    + rewrite chunks_short by lia. cbn. rewrite app_nil_r. split; [f_equal; lia|reflexivity].
  - pose proof (firstn_skipn 50 xs) as E.
    assert (H50 : List.length (firstn 50 xs) = 50) by (rewrite length_firstn; lia).
    assert (Hb : List.length (skipn 50 xs) = q * 50 + r) by (rewrite length_skipn; lia).
    revert E H50 Hb. generalize (firstn 50 xs) (skipn 50 xs).
    intros a b E H50 Hb. subst xs.
    rewrite chunks_app by assumption.
    destruct (IH b r Hb Hr) as [Hs Hc].
    cbn [map repeat app List.concat]. rewrite Hs, Hc, H50. split; reflexivity.
Qed.

Lemma chunks_bounds (xs : list string) :
  Forall (fun c => 1 <= List.length c <= 50) (chunks xs).
Proof.
  destruct (chunks_sizes (List.length xs / 50) xs (r := List.length xs mod 50))
    as [Hs _].
  - rewrite Nat.mul_comm. apply Nat.div_mod_eq.
  - apply Nat.mod_upper_bound. discriminate.
  - assert (Hall : Forall (fun n => 1 <= n <= 50)
                     (map (@List.length string) (chunks xs))).
    { rewrite Hs. apply Forall_app. split.
      - apply Forall_forall. intros n Hn. apply repeat_spec in Hn. lia.
      - destruct (Nat.eqb_spec (List.length xs mod 50) 0); constructor; [|constructor].
        pose proof (Nat.mod_upper_bound (List.length xs) 50). lia. }
    rewrite Forall_map in Hall. exact Hall.
Qed.

(** ** The enforcement loop *)

Lemma disabled_app (xs ys : list event) :
  disabled (xs ++ ys) = (disabled xs ++ disabled ys)%list.
Proof.
  induction xs as [|e r IH]; simpl; [reflexivity|].
  destruct e; simpl; now rewrite IH.
Qed.

Lemma dispatched_app (xs ys : list event) :
  dispatched (xs ++ ys) = (dispatched xs ++ dispatched ys)%list.
Proof.
  induction xs as [|e r IH]; simpl; [reflexivity|].
  destruct e; simpl; now rewrite IH.
Qed.

Lemma disabled_sent (texts : list string) : disabled (map SendLogs texts) = [].
Proof. induction texts; simpl; auto. Qed.

Lemma dispatched_sent (texts : list string) : dispatched (map SendLogs texts) = texts.
Proof. induction texts; simpl; [reflexivity|]. now f_equal. Qed.

Lemma disabled_diagnostics (result : option exn) : disabled (diagnostics result) = [].
Proof. destruct result as [[]|]; reflexivity. Qed.

Section EnforceFacts.
Context `{RT : PyRuntime}.
Variable PanelType : Type.
Variable disable_user : PanelType -> UserType -> option exn.
Variable panel_data : PanelType.
Variable except_users : list string.
Variable special_limit : dict Z.
Variable limit_number : Z.

Local Abbreviation enforce_loop :=
  (enforce disable_user panel_data except_users special_limit limit_number).
Local Abbreviation flagged := (over_limit except_users special_limit limit_number).
Local Abbreviation call user_name :=
  (disable_user panel_data {| name := user_name; ip := [] |}).

Local Abbreviation user_events :=
  (turn_events disable_user panel_data except_users special_limit limit_number).

Lemma enforce_skip u m rest :
  flagged (u, m) = false -> enforce_loop ((u, m) :: rest) = enforce_loop rest.
Proof.
  unfold over_limit. cbn [fst snd enforce]. intros H.
  destruct (str_in u except_users); [reflexivity|].
  cbn [negb andb] in H. now rewrite H.
Qed.

Lemma enforce_flag u m rest :
  flagged (u, m) = true ->
  enforce_loop ((u, m) :: rest)
  = if survived (call u)
    then ((user_events (u, m) ++ fst (enforce_loop rest))%list,
          snd (enforce_loop rest))
    else (user_events (u, m), call u).
Proof.
  intros H. unfold turn_events. rewrite H. revert H.
  unfold over_limit. cbn [fst snd enforce]. intros H.
  destruct (str_in u except_users); [discriminate|].
  cbn [negb andb] in H. rewrite H.
  destruct (call u) as [[k|e|e]|]; cbn [survived diagnostics];
    try (now rewrite app_nil_r).
  - destruct (enforce_loop rest) as [evs res]. cbn [fst snd].
    now rewrite <- app_assoc.
  - destruct (enforce_loop rest) as [evs res]. cbn [fst snd].
    now rewrite app_nil_r.
Qed.

(** The loop handles a prefix of the table, the whole of it when no
    exception ends it. *)
Lemma enforce_events items :
  exists handled rest,
    items = (handled ++ rest)%list
    /\ fst (enforce_loop items) = flat_map user_events handled
    /\ (snd (enforce_loop items) = None -> rest = []).
Proof.
  induction items as [|[u m] r (handled & rest & Hsplit & Hev & Hdone)].
  - exists [], []. repeat split.
  - destruct (flagged (u, m)) eqn:E.
    + rewrite enforce_flag by assumption.
      destruct (survived (call u)) eqn:Es.
      * exists ((u, m) :: handled), rest. cbn [fst snd flat_map].
        rewrite Hev, Hsplit at 1. repeat split; auto.
      * exists [(u, m)], r. cbn [fst snd flat_map]. rewrite app_nil_r.
        repeat split. intros Hc. rewrite Hc in Es. discriminate.
    + rewrite enforce_skip by assumption.
      exists ((u, m) :: handled), rest. cbn [flat_map].
      unfold turn_events at 1. rewrite E. cbn [app].
      rewrite Hsplit at 1. repeat split; auto.
Qed.

Lemma enforce_returns items :
  snd (enforce_loop items) = None ->
  fst (enforce_loop items) = flat_map user_events items.
Proof.
  intros H. destruct (enforce_events items) as (handled & rest & Hsplit & Hev & Hd).
  rewrite Hev, Hsplit, (Hd H). now rewrite app_nil_r.
Qed.

(** The loop returns exactly when no call of the panel, made for a user
    over the limit, raises anything but a value error. *)
Lemma enforce_survives items :
  (forall item, In item items -> flagged item = true ->
                survived (call (fst item)) = true) ->
  snd (enforce_loop items) = None.
Proof.
  induction items as [|[u m] r IH]; intros H; [reflexivity|].
  destruct (flagged (u, m)) eqn:E.
  - rewrite enforce_flag by assumption.
    pose proof (H (u, m) (or_introl eq_refl) E) as Hs. cbn [fst] in Hs.
    rewrite Hs. cbn [snd]. apply IH. intros item Hin. apply H. now right.
  - rewrite enforce_skip by assumption. apply IH. intros item Hin. apply H. now right.
Qed.

Lemma disabled_user_events item :
  disabled (user_events item) = if flagged item then [fst item] else [].
Proof.
  unfold turn_events. destruct (flagged item); [|reflexivity].
  rewrite disabled_app, disabled_diagnostics. reflexivity.
Qed.

Lemma disabled_flat_map items :
  disabled (flat_map user_events items) = map fst (filter flagged items).
Proof.
  induction items as [|item r IH]; [reflexivity|].
  cbn [flat_map filter]. rewrite disabled_app, disabled_user_events, IH.
  now destruct (flagged item).
Qed.
End EnforceFacts.

(** ** The report *)

Lemma In_insert_desc {A : Type} (key : A -> Z) (x y : A) (xs : list A) :
  In y (insert_desc key x xs) <-> y = x \/ In y xs.
Proof.
  induction xs as [|z r IH]; simpl.
  - intuition.
  - destruct (key x <? key z)%Z; simpl; [rewrite IH|]; intuition.
Qed.

Lemma In_sorted_desc {A : Type} (key : A -> Z) (y : A) (xs : list A) :
  In y (sorted_desc key xs) <-> In y xs.
Proof.
  unfold sorted_desc. induction xs as [|x r IH]; simpl; [tauto|].
  rewrite In_insert_desc, IH. intuition.
Qed.

Lemma format_blocks_nil (items : list (string * dict Z)) :
  format_blocks items = [] -> forall u m, In (u, m) items -> m = [].
Proof.
  induction items as [|[u0 m0] r IH]; simpl; [tauto|].
  destruct m0 as [|kv m0]; [|discriminate].
  intros H u m [E|E]; [now injection E as _ <- | eauto].
Qed.

Lemma total_of_empty (t : streak_table) :
  (forall u m, In (u, m) t -> m = []) ->
  sum_nat (map (@List.length (string * Z)) (PyDict.values t)) = 0.
Proof.
  induction t as [|[u m] r IH]; intros H; simpl; [reflexivity|].
  rewrite (H u m) by now left. simpl. apply IH. intros u' m' Hin. eapply H. right. eauto.
Qed.

(** A report without blocks is the summary line alone, and counts no
    address. *)
Lemma empty_report (t : streak_table) :
  _format_streak_messages t = [] ->
  report_messages t = ["---------" ++ LF ++ "Всего активных IP: <b>0</b>"].
Proof.
  intros H. unfold report_messages. rewrite H. cbn [app]. f_equal.
  unfold summary_line. rewrite total_of_empty; [reflexivity|].
  intros u m Hin. apply (format_blocks_nil _ H u m). now apply In_sorted_desc.
Qed.

Lemma report_messages_length (t : streak_table) :
  List.length (report_messages t) = List.length (_format_streak_messages t) + 1.
Proof. unfold report_messages. rewrite length_app. reflexivity. Qed.

(** ** One cycle *)

Section CycleFacts.
Context `{RT : PyRuntime}.
Variable PanelType : Type.
Variable disable_user : PanelType -> UserType -> option exn.
Variable config_data : config.
Variable panel_data : PanelType.
Variable g : globals.

Local Abbreviation cycle := (check_users_usage disable_user config_data panel_data g).
Local Abbreviation updated :=
  (_update_ip_streaks (IP_STREAKS g) (fst (check_ip_used (ACTIVE_USERS g)))).
Local Abbreviation loop limit_number :=
  (enforce disable_user panel_data (get_default (EXCEPT_USERS config_data) [])
     (get_default (SPECIAL_LIMIT config_data) []) limit_number updated).

Lemma cycle_table : IP_STREAKS (final cycle) = updated.
Proof.
  unfold check_users_usage. destruct (check_ip_used (ACTIVE_USERS g)) as [ca logs].
  cbn [fst]. destruct (GENERAL_LIMIT config_data) as [lim|]; [|reflexivity].
  now destruct (enforce _ _ _ _ _ _) as [evs [e|]].
Qed.

Lemma cycle_raised :
  raised cycle
  = match GENERAL_LIMIT config_data with
    | Some limit_number => snd (loop limit_number)
    | None => Some (KeyError "GENERAL_LIMIT")
    end.
Proof.
  unfold check_users_usage. destruct (check_ip_used (ACTIVE_USERS g)) as [ca logs].
  cbn [fst]. destruct (GENERAL_LIMIT config_data) as [lim|]; [|reflexivity].
  now destruct (enforce _ _ _ _ _ _) as [evs [e|]].
Qed.

Lemma cycle_trace :
  trace cycle
  = (snd (check_ip_used (ACTIVE_USERS g))
     ++ map SendLogs (shorter_messages updated)
     ++ match GENERAL_LIMIT config_data with
        | Some limit_number => fst (loop limit_number)
        | None => []
        end)%list.
Proof.
  unfold check_users_usage. destruct (check_ip_used (ACTIVE_USERS g)) as [ca logs].
  cbn [fst snd]. destruct (GENERAL_LIMIT config_data) as [lim|].
  - now destruct (enforce _ _ _ _ _ _) as [evs [e|]].
  - cbn [trace]. now rewrite app_nil_r.
Qed.

Lemma cycle_snapshot :
  ACTIVE_USERS (final cycle)
  = match raised cycle with
    | None => []
    | Some _ => ACTIVE_USERS g
    end.
Proof.
  unfold check_users_usage. destruct (check_ip_used (ACTIVE_USERS g)) as [ca logs].
  destruct (GENERAL_LIMIT config_data) as [lim|]; [|reflexivity].
  now destruct (enforce _ _ _ _ _ _) as [evs [e|]].
Qed.
End CycleFacts.

Section LogFacts.
Context `{RT : PyRuntime}.

Lemma snapshot_fold_logs active ks acc :
  Forall is_log_info (snd acc) ->
  Forall is_log_info (snd (fold_left (snapshot_user active) ks acc)).
Proof.
  revert acc. induction ks as [|k r IH]; intros acc H; simpl; [assumption|].
  apply IH. unfold snapshot_user. destruct (PyDict.get active k); [|assumption].
  cbn [snd]. apply Forall_app. split; [assumption|]. repeat constructor.
Qed.

Lemma check_ip_used_logs active : Forall is_log_info (snd (check_ip_used active)).
Proof.
  unfold check_ip_used.
  pose proof (@snapshot_fold_logs active (PyDict.keys active) ([], [])
                (Forall_nil _)) as H.
  destruct (fold_left (snapshot_user active) (PyDict.keys active) ([], []))
    as [ca logs].
  cbn [snd] in *. apply Forall_app. split; [assumption|]. repeat constructor.
Qed.

Lemma logs_disabled evs : Forall is_log_info evs -> disabled evs = [].
Proof.
  induction 1 as [|e r He _ IH]; [reflexivity|].
  destruct e; simpl in *; now try contradiction.
Qed.

Lemma logs_dispatched evs : Forall is_log_info evs -> dispatched evs = [].
Proof.
  induction 1 as [|e r He _ IH]; [reflexivity|].
  destruct e; simpl in *; now try contradiction.
Qed.
End LogFacts.

(** ** The scheduler *)

Section RunFacts.
Context `{RT : PyRuntime}.
Variable PanelType : Type.

(** While the loop runs, the table goes through the streak updates of the
    snapshots the cycles found, one after the other. *)
Lemma run_streaks_after (cycles : list (surroundings PanelType))
    (panel_data : PanelType) (g : globals) :
  raised (run_check_users_usage cycles panel_data g) = None ->
  IP_STREAKS (final (run_check_users_usage cycles panel_data g))
  = streaks_after (IP_STREAKS g) (map (@polled PanelType) cycles).
Proof.
  revert g. induction cycles as [|c rest IH]; intros g; [intros _; reflexivity|].
  cbn [run_check_users_usage map streaks_after fold_left].
  pose proof (cycle_table (disable_user_now c) (cycle_config c) panel_data
                {| ACTIVE_USERS := polled c; IP_STREAKS := IP_STREAKS g |}) as Htab.
  cbn [ACTIVE_USERS IP_STREAKS] in Htab.
  destruct (raised (check_users_usage _ _ _ _)) eqn:E; [congruence|].
  destruct (CHECK_INTERVAL (sleep_config c)); [|discriminate].
  cbn [raised final]. intros H. rewrite (IH _ H), Htab. reflexivity.
Qed.

(** Every table the loop reaches from a fresh process has unique keys. *)
Lemma run_table_wf (cycles : list (surroundings PanelType))
    (panel_data : PanelType) (g : globals) :
  table_wf (IP_STREAKS g) ->
  table_wf (IP_STREAKS (final (run_check_users_usage cycles panel_data g))).
Proof.
  revert g. induction cycles as [|c rest IH]; intros g Hwf; [exact Hwf|].
  cbn [run_check_users_usage].
  pose proof (cycle_table (disable_user_now c) (cycle_config c) panel_data
                {| ACTIVE_USERS := polled c; IP_STREAKS := IP_STREAKS g |}) as Htab.
  cbn [ACTIVE_USERS IP_STREAKS] in Htab.
  assert (Hwf' : table_wf (IP_STREAKS (final (check_users_usage (disable_user_now c)
                   (cycle_config c) panel_data
                   {| ACTIVE_USERS := polled c; IP_STREAKS := IP_STREAKS g |})))).
  { rewrite Htab. now apply update_wf. }
  destruct (raised (check_users_usage _ _ _ _)); [exact Hwf'|].
  destruct (CHECK_INTERVAL (sleep_config c)); [|exact Hwf'].
  cbn [final]. now apply IH.
Qed.
End RunFacts.

(** ** What is dispatched *)

Section DispatchFacts.
Context `{RT : PyRuntime}.
Variable PanelType : Type.
Variable disable_user : PanelType -> UserType -> option exn.
Variable config_data : config.
Variable panel_data : PanelType.
Variable g : globals.

Local Abbreviation cycle := (check_users_usage disable_user config_data panel_data g).

Lemma cycle_dispatched :
  exists warnings,
    dispatched (trace cycle)
    = (shorter_messages (IP_STREAKS (final cycle)) ++ warnings)%list
    /\ (IP_STREAKS (final cycle) = [] -> warnings = []).
Proof.
  rewrite cycle_trace, cycle_table.
  rewrite !dispatched_app, dispatched_sent.
  rewrite (logs_dispatched (check_ip_used_logs _)). cbn [app].
  eexists. split; [reflexivity|].
  intros ->. now destruct (GENERAL_LIMIT config_data).
Qed.
End DispatchFacts.

Lemma chunks_last (blocks : list string) (line : string) :
  exists earlier chunk,
    chunks (blocks ++ [line])%list = (earlier ++ [(chunk ++ [line])%list])%list.
Proof.
  destruct (chunks_sizes (List.length (blocks ++ [line]) / 50) (blocks ++ [line])%list
              (r := List.length (blocks ++ [line]) mod 50)) as [_ Hc].
  { rewrite Nat.mul_comm. apply Nat.div_mod_eq. }
  { apply Nat.mod_upper_bound. discriminate. }
  pose proof (chunks_bounds (blocks ++ [line])%list) as Hb.
  assert (Hne : chunks (blocks ++ [line])%list <> []).
  { intros E. rewrite E in Hc. cbn in Hc. now destruct blocks. }
  destruct (exists_last Hne) as (cs & c & E). rewrite E in Hc, Hb. rewrite E.
  apply Forall_app in Hb as [_ Hb]. inversion Hb as [|? ? Hlen _]; subst.
  assert (Hc' : c <> []) by (intros ->; simpl in Hlen; lia).
  destruct (exists_last Hc') as (c' & y & ->).
  rewrite concat_app in Hc. cbn [List.concat] in Hc.
  rewrite app_nil_r, app_assoc in Hc. apply app_inj_tail in Hc as [_ ->].
  now exists cs, c'.
Qed.

(** With 120 blocks the report goes out in three parts. *)
Lemma chunks_120 (blocks : list string) (line : string) :
  List.length blocks = 120 ->
  chunks (blocks ++ [line])%list
  = [firstn 50 blocks; firstn 50 (skipn 50 blocks); (skipn 100 blocks ++ [line])%list].
Proof.
  intros H.
  rewrite <- (firstn_skipn 50 blocks) at 1.
  rewrite <- (firstn_skipn 50 (skipn 50 blocks)) at 1.
  rewrite skipn_skipn. cbn [Nat.add].
  rewrite <- !app_assoc.
  rewrite chunks_app by (rewrite length_firstn; lia).
  rewrite chunks_app by (rewrite length_firstn, length_skipn; lia).
  rewrite chunks_short by (rewrite length_app, length_skipn; simpl; lia).
  reflexivity.
Qed.

(** ** Who is over the limit *)

Lemma flat_map_split {A B : Type} (f : A -> list B) (x : A) (xs : list A) :
  In x xs -> exists before after, flat_map f xs = (before ++ f x ++ after)%list.
Proof.
  induction xs as [|y r IH]; [contradiction|].
  intros [->|Hin]; cbn [flat_map].
  - now exists [], (flat_map f r).
  - destruct (IH Hin) as (before & after & ->).
    exists (f y ++ before)%list, after. now rewrite <- app_assoc.
Qed.

Section LimitFacts.
Context `{RT : PyRuntime}.
Import PyDictFacts.

(** The mapping of a user after the update has one key for each distinct
    address of the snapshot. *)
Lemma update_entry_length t ca u ips m :
  table_wf t -> PyDict.wf ca -> PyDict.get ca u = Some ips -> NoDup ips ->
  PyDict.get (_update_ip_streaks t ca) u = Some m ->
  List.length m = List.length ips.
Proof.
  intros Hwf Hca Hget Hnd Hm.
  destruct (update_present u Hwf Hca Hget) as (m0 & Hm0 & Hchar).
  rewrite Hm in Hm0. injection Hm0 as <-.
  assert (Hwfm : PyDict.wf m).
  { destruct (update_wf ca Hwf) as [_ Hall]. eapply Hall, Hm. }
  rewrite <- (length_map fst m). apply Permutation_length.
  apply NoDup_Permutation; [exact Hwfm|exact Hnd|].
  intros a. fold (PyDict.keys m). rewrite <- (str_in_In a ips).
  specialize (Hchar a). destruct (str_in a ips) eqn:Ea.
  - split; [reflexivity|]. intros _.
    destruct (in_dec string_dec a (PyDict.keys m)) as [Hin|Hout]; [assumption|].
    apply get_None in Hout. congruence.
  - split; [|discriminate]. intros Hin. apply get_None in Hchar. contradiction.
Qed.

Lemma update_entry_origin t active u m :
  table_wf t ->
  PyDict.get (_update_ip_streaks t (fst (check_ip_used active))) u = Some m ->
  exists data, PyDict.get active u = Some data
               /\ List.length m = List.length (unique_ips (ip data)).
Proof.
  intros Hwf Hm.
  destruct (PyDict.get (fst (check_ip_used active)) u) as [ips|] eqn:E.
  - pose proof E as E'. rewrite check_ip_used_get in E'.
    destruct (PyDict.get active u) as [data|]; [|discriminate].
    injection E' as <-. exists data. split; [reflexivity|].
    eapply update_entry_length; eauto using check_ip_used_wf.
    apply unique_ips_NoDup.
  - rewrite update_absent in Hm by assumption. discriminate.
Qed.
End LimitFacts.

Section VerdictFacts.
Context `{RT : PyRuntime}.
Variable PanelType : Type.
Variable disable_user : PanelType -> UserType -> option exn.
Variable panel_data : PanelType.
Variable except_users : list string.
Variable special_limit : dict Z.
Variable limit_number : Z.

Local Abbreviation enforce_loop :=
  (enforce disable_user panel_data except_users special_limit limit_number).
Local Abbreviation flagged := (over_limit except_users special_limit limit_number).

(** Whoever the loop asks the panel to disable is an entry of the table
    that is over its limit and not exempt. *)
Lemma enforce_disabled_sound items u :
  In u (disabled (fst (enforce_loop items))) ->
  exists m, In (u, m) items /\ flagged (u, m) = true.
Proof.
  destruct (enforce_events disable_user panel_data except_users special_limit
              limit_number items) as (handled & rest & Hsplit & Hev & _).
  rewrite Hev, disabled_flat_map, in_map_iff.
  intros ([u' m] & <- & Hin). apply filter_In in Hin as [Hin Hf].
  exists m. split; [|exact Hf]. rewrite Hsplit. apply in_or_app. now left.
Qed.

Lemma enforce_disabled_complete items u m :
  snd (enforce_loop items) = None ->
  In (u, m) items -> flagged (u, m) = true ->
  In u (disabled (fst (enforce_loop items))).
Proof.
  intros Hret Hin Hf. rewrite enforce_returns by assumption.
  rewrite disabled_flat_map. apply in_map_iff. exists (u, m).
  split; [reflexivity|]. apply filter_In. now split.
Qed.

Lemma enforce_disabled_keys items u :
  In u (disabled (fst (enforce_loop items))) -> In u (PyDict.keys items).
Proof.
  intros H. destruct (enforce_disabled_sound _ _ H) as (m & Hin & _).
  change u with (fst (u, m)). now apply in_map.
Qed.

Lemma enforce_no_value_error items msg :
  snd (enforce_loop items) <> Some (ValueError msg).
Proof.
  induction items as [|[u m] r IH]; [discriminate|].
  destruct (flagged (u, m)) eqn:E.
  - rewrite enforce_flag by assumption.
    destruct (disable_user panel_data {| name := u; ip := [] |}) as [[k|e|e]|];
      cbn [survived snd]; try assumption; discriminate.
  - now rewrite enforce_skip.
Qed.

Lemma enforce_app xs ys :
  snd (enforce_loop xs) = None ->
  enforce_loop (xs ++ ys)
  = ((fst (enforce_loop xs) ++ fst (enforce_loop ys))%list, snd (enforce_loop ys)).
Proof.
  induction xs as [|[u m] r IH]; intros H.
  - cbn [app enforce fst]. now destruct (enforce_loop ys).
  - cbn [app]. destruct (flagged (u, m)) eqn:E.
    + rewrite enforce_flag in H by assumption.
      rewrite !enforce_flag by assumption.
      destruct (survived (disable_user panel_data {| name := u; ip := [] |}))
        eqn:Es.
      * cbn [fst snd] in *. rewrite IH by assumption. cbn [fst snd].
        now rewrite app_assoc.
      * cbn [snd] in H. rewrite H in Es. discriminate.
    + rewrite enforce_skip in H by assumption.
      rewrite !enforce_skip by assumption. now apply IH.
Qed.
End VerdictFacts.

Section CycleVerdict.
Context `{RT : PyRuntime}.
Variable PanelType : Type.
Variable disable_user : PanelType -> UserType -> option exn.
Variable config_data : config.
Variable panel_data : PanelType.
Variable g : globals.

Local Abbreviation cycle := (check_users_usage disable_user config_data panel_data g).

Lemma cycle_disabled :
  disabled (trace cycle)
  = match GENERAL_LIMIT config_data with
    | Some limit_number =>
        disabled (fst (enforce disable_user panel_data
                         (get_default (EXCEPT_USERS config_data) [])
                         (get_default (SPECIAL_LIMIT config_data) [])
                         limit_number (IP_STREAKS (final cycle))))
    | None => []
    end.
Proof.
  rewrite cycle_trace, cycle_table, !disabled_app, disabled_sent.
  rewrite (logs_disabled (check_ip_used_logs _)). cbn [app].
  now destruct (GENERAL_LIMIT config_data).
Qed.

(** With a panel that fails by value errors only, and a general limit in
    the configuration, the cycle returns. *)
Lemma cycle_returns limit_number :
  GENERAL_LIMIT config_data = Some limit_number ->
  (forall user, survived (disable_user panel_data user) = true) ->
  raised cycle = None.
Proof.
  intros Hlim Hpanel. rewrite cycle_raised, Hlim.
  apply enforce_survives. intros item _ _. apply Hpanel.
Qed.
End CycleVerdict.

(** ** Exempt users *)

Lemma disabled_In (evs : list event) (user : UserType) :
  In (DisableUser user) evs -> In (name user) (disabled evs).
Proof.
  induction evs as [|e r IH]; [contradiction|].
  intros [->|Hin]; [now left|]. destruct e; simpl; auto.
Qed.

Section ExemptFacts.
Context `{RT : PyRuntime}.
Variable PanelType : Type.

Lemma enforce_without
    (disable_user : PanelType -> UserType -> option exn) (panel_data : PanelType)
    (except_users : list string) (special_limit : dict Z) (limit_number : Z)
    (user_name : string) (items : list (string * dict Z)) :
  str_in user_name except_users = true ->
  enforce disable_user panel_data except_users special_limit limit_number items
  = enforce disable_user panel_data except_users special_limit limit_number
      (filter (fun item => negb (String.eqb (fst item) user_name)) items).
Proof.
  intros Hex. induction items as [|[u m] r IH]; [reflexivity|].
  cbn [filter fst]. destruct (String.eqb_spec u user_name) as [->|Hne]; cbn [negb].
  - cbn [enforce]. now rewrite Hex.
  - cbn [enforce]. now rewrite IH.
Qed.

Lemma cycle_exempt
    (disable_user : PanelType -> UserType -> option exn) (config_data : config)
    (panel_data : PanelType) (g : globals) (user_name : string) :
  str_in user_name (get_default (EXCEPT_USERS config_data) []) = true ->
  ~ In user_name
      (disabled (trace (check_users_usage disable_user config_data panel_data g))).
Proof.
  intros Hex. rewrite cycle_disabled.
  destruct (GENERAL_LIMIT config_data) as [lim|]; [|tauto].
  intros Hin. apply enforce_disabled_sound in Hin as (m & _ & Hf).
  unfold over_limit in Hf. cbn [fst] in Hf. rewrite Hex in Hf. discriminate Hf.
Qed.

Lemma run_exempt (cycles : list (surroundings PanelType)) (panel_data : PanelType)
    (g : globals) (user_name : string) :
  (forall c, In c cycles ->
             str_in user_name (get_default (EXCEPT_USERS (cycle_config c)) []) = true) ->
  ~ In user_name (disabled (trace (run_check_users_usage cycles panel_data g))).
Proof.
  revert g. induction cycles as [|c rest IH]; intros g Hex; [simpl; tauto|].
  cbn [run_check_users_usage].
  pose proof (@cycle_exempt (disable_user_now c) (cycle_config c) panel_data
                {| ACTIVE_USERS := polled c; IP_STREAKS := IP_STREAKS g |}
                user_name (Hex c (or_introl eq_refl))) as Hc.
  destruct (raised (check_users_usage _ _ _ _)); [exact Hc|].
  destruct (CHECK_INTERVAL (sleep_config c)); [|exact Hc].
  cbn [trace]. rewrite disabled_app. cbn [disabled]. intros Hin.
  apply in_app_or in Hin as [Hin|Hin]; [now apply Hc|].
  revert Hin. apply IH. intros c' Hc'. apply Hex. now right.
Qed.
End ExemptFacts.

(** ** Empty mappings *)

Lemma dict_without_keys {V : Type} (m : dict V) :
  (forall k, PyDict.get m k = None) -> m = [].
Proof.
  destruct m as [|[k v] r]; [reflexivity|]. intros H. specialize (H k).
  simpl in H. now rewrite String.eqb_refl in H.
Qed.

(** ** What the loop warns about *)

Lemma dispatched_diagnostics (result : option exn) :
  dispatched (diagnostics result) = [].
Proof. destruct result as [[]|]; reflexivity. Qed.

Lemma warned_app (xs ys : list event) :
  warned (xs ++ ys) = (warned xs ++ warned ys)%list.
Proof.
  induction xs as [|e r IH]; simpl; [reflexivity|].
  destruct e; simpl; now rewrite IH.
Qed.

Lemma warned_sent (texts : list string) : warned (map SendLogs texts) = [].
Proof. induction texts; simpl; auto. Qed.

Lemma warned_logs (evs : list event) : Forall is_log_info evs -> warned evs = [].
Proof.
  induction 1 as [|e r He _ IH]; [reflexivity|].
  destruct e; simpl in *; now try contradiction.
Qed.

Lemma warned_diagnostics (result : option exn) : warned (diagnostics result) = [].
Proof. destruct result as [[]|]; reflexivity. Qed.

Lemma entry_split {V : Type} (d : dict V) (k : string) (v : V) :
  PyDict.wf d -> PyDict.get d k = Some v ->
  exists pre post,
    d = (pre ++ (k, v) :: post)%list
    /\ ~ In k (PyDict.keys pre) /\ ~ In k (PyDict.keys post).
Proof.
  intros Hwf Hget. apply PyDictFacts.get_Some_In, in_split in Hget.
  destruct Hget as (pre & post & ->). exists pre, post.
  unfold PyDict.wf, PyDict.keys in Hwf. rewrite map_app in Hwf. cbn [map fst] in Hwf.
  apply NoDup_remove_2 in Hwf.
  repeat split; intros Hin; apply Hwf, in_or_app; [now left|now right].
Qed.

Section MoreCycleFacts.
Context `{RT : PyRuntime}.
Variable PanelType : Type.
Variable disable_user : PanelType -> UserType -> option exn.
Variable panel_data : PanelType.
Variable except_users : list string.
Variable special_limit : dict Z.
Variable limit_number : Z.

Local Abbreviation flagged := (over_limit except_users special_limit limit_number).
Local Abbreviation one_turn :=
  (turn_events disable_user panel_data except_users special_limit limit_number).

Lemma dispatched_flat_map items :
  dispatched (flat_map one_turn items) = map warning_text (filter flagged items).
Proof.
  induction items as [|item r IH]; [reflexivity|].
  cbn [flat_map filter]. rewrite dispatched_app, IH. unfold turn_events.
  destruct (flagged item); [|reflexivity].
  rewrite dispatched_app, dispatched_diagnostics. reflexivity.
Qed.
End MoreCycleFacts.

Section WarnedFacts.
Context `{RT : PyRuntime}.
Variable PanelType : Type.
Variable disable_user : PanelType -> UserType -> option exn.
Variable panel_data : PanelType.
Variable except_users : list string.
Variable special_limit : dict Z.
Variable limit_number : Z.

Local Abbreviation flagged := (over_limit except_users special_limit limit_number).
Local Abbreviation one_turn :=
  (turn_events disable_user panel_data except_users special_limit limit_number).

Lemma warned_flat_map items :
  warned (flat_map one_turn items)
  = map (fun kv => warning_message (fst kv) (snd kv)) (filter flagged items).
Proof.
  induction items as [|item r IH]; [reflexivity|].
  cbn [flat_map filter]. rewrite warned_app, IH. unfold turn_events.
  destruct (flagged item); [|reflexivity].
  rewrite warned_app, warned_diagnostics. reflexivity.
Qed.
End WarnedFacts.

(** ** The model on examples *)

Example format_example :
  _format_streak_messages
    [("carol", [("8.8.8.8", 7%Z)]); ("idle", []);
     ("bob", [("2.2.2.2", 1%Z); ("1.1.1.1", 3%Z); ("3.3.3.3", 3%Z)])]
  = ["bob всего 3 активных ip  " ++ LF
     ++ "- 1.1.1.1 (3 лога подряд)" ++ LF
     ++ "- 3.3.3.3 (3 лога подряд)" ++ LF
     ++ "- 2.2.2.2 (1 лог подряд)";
     "carol всего 1 активных ip  " ++ LF ++ "- 8.8.8.8 (7 логов подряд)"].
Proof. reflexivity. Qed.

Example update_example :
  _update_ip_streaks Sample.old_streaks
    (fst (check_ip_used [Sample.user "dave" ["4.4.4.1"];
                         Sample.user "bob" ["2.2.2.2"; "5.5.5.5"; "2.2.2.2"]]))
  = [("bob", [("2.2.2.2", 2%Z); ("5.5.5.5", 1%Z)]); ("dave", [("4.4.4.1", 1%Z)])].
Proof. reflexivity. Qed.

Example cycle_example :
  let o := check_users_usage Sample.panel_fails_for_bob Sample.limits tt
             Sample.polled_busy in
  skipn 6 (trace o)
  = [LogWarning
       "User bob has 4 active ips. {'2.2.2.1', '2.2.2.2', '2.2.2.3', '2.2.2.4'}";
     SendLogs
       "<b>Warning: </b>User bob has 4 active ips. {'2.2.2.1', '2.2.2.2', '2.2.2.3', '2.2.2.4'}";
     DisableUser {| name := "bob"; ip := [] |};
     Print "bob: 500"]
  /\ raised o = None.
Proof. vm_compute. split; reflexivity. Qed.

Example chunk_example :
  map (@List.length string) (chunks (repeat "block" 120)) = [50; 50; 20]
  /\ map (@List.length string) (chunks (repeat "block" 100 ++ ["summary"])%list)
     = [50; 50; 1].
Proof. vm_compute. split; reflexivity. Qed.

(** * The claims *)

(** C1. Take a table that holds no streak for a user and an address, as the
    table of a fresh process does.  If the address is in the user's
    de-duplicated active set in each of the next k cycles (k at least 1)
    and not in the cycle after them, the streak after the update of cycle k
    is exactly k, after the update of cycle k+1 the table has no entry for
    the pair, and a cycle later in which the address is active again gives
    the streak 1. *)
Theorem C1_streak_semantics `{RT : PyRuntime}
    (t : streak_table) (cycles : list (dict UserType))
    (next later : dict UserType) (user ip_addr : string) :
  table_wf t ->
  streak t user ip_addr = None ->
  cycles <> [] ->
  Forall (fun snap => is_active snap user ip_addr = true) cycles ->
  is_active next user ip_addr = false ->
  is_active later user ip_addr = true ->
  streak (streaks_after t cycles) user ip_addr
  = Some (Z.of_nat (List.length cycles))
  /\ streak (streaks_after t (cycles ++ [next])) user ip_addr = None
  /\ streak (streaks_after t (cycles ++ [next; later])) user ip_addr = Some 1%Z.
Proof.
  intros Hwf Hfresh Hne Hall Hnext Hlater.
  assert (Hwfk : table_wf (streaks_after t cycles)) by now apply streaks_after_wf.
  assert (Hgone : streak (streaks_after t (cycles ++ [next])) user ip_addr = None).
  { rewrite streaks_after_app. cbn [streaks_after fold_left].
    rewrite cycle_streak by assumption. now rewrite Hnext. }
  split; [|split].
  - rewrite streaks_after_active by assumption. rewrite Hfresh. reflexivity.
  - exact Hgone.
  - replace (cycles ++ [next; later])%list with ((cycles ++ [next]) ++ [later])%list
      by (rewrite <- app_assoc; reflexivity).
    rewrite streaks_after_app. cbn [streaks_after fold_left].
    rewrite cycle_streak by now apply streaks_after_wf.
    rewrite Hlater. fold (streaks_after t (cycles ++ [next])). now rewrite Hgone.
Qed.

Lemma C1_streak_semantics_witness :
  let cycles := [Sample.seen; Sample.seen; Sample.seen] in
  streak (streaks_after [] cycles) "alice" "1.1.1.1" = Some 3%Z
  /\ streak (streaks_after [] (cycles ++ [Sample.seen_elsewhere])) "alice" "1.1.1.1"
     = None
  /\ streak (streaks_after [] (cycles ++ [Sample.seen_elsewhere; Sample.seen]))
       "alice" "1.1.1.1" = Some 1%Z.
Proof.
  apply (C1_streak_semantics (t := [])).
  - split; [constructor | discriminate].
  - reflexivity.
  - discriminate.
  - repeat constructor.
  - reflexivity.
  - reflexivity.
Defined.

(** C2, as the code has it.  A user who is missing from the current
    snapshot is removed from the streak table entirely, whatever the prior
    streaks were.  A user who is in the snapshot with an empty occurrence
    list keeps an entry, or gets one, and its mapping is empty.  In both
    cases, and whenever the user's active set is empty, no streak of that
    user is left in the table. *)
Theorem C2_empty_active_set `{RT : PyRuntime}
    (t : streak_table) (snap : dict UserType) (user : string) :
  table_wf t ->
  let after := _update_ip_streaks t (fst (check_ip_used snap)) in
  (PyDict.get snap user = None -> PyDict.get after user = None)
  /\ (forall data, PyDict.get snap user = Some data -> ip data = [] ->
                   PyDict.get after user = Some [])
  /\ ((forall a, is_active snap user a = false) ->
      forall a, streak after user a = None).
Proof.
  intros Hwf after. unfold after. split; [|split].
  - intros H. apply update_absent; [assumption|].
    now rewrite check_ip_used_get, H.
  - intros data Hget Hip.
    assert (Hca : PyDict.get (fst (check_ip_used snap)) user = Some []).
    { rewrite check_ip_used_get, Hget. cbn [option_map]. unfold reduced.
      now rewrite Hip. }
    destruct (update_present user Hwf (check_ip_used_wf snap) Hca) as (m & Hm & Hnone).
    rewrite Hm. f_equal. now apply dict_without_keys.
  - intros H a. rewrite cycle_streak by assumption. now rewrite H.
Qed.

Lemma C2_empty_active_set_witness :
  let after := _update_ip_streaks Sample.old_streaks (fst (check_ip_used Sample.idle)) in
  PyDict.get after "carol" = None
  /\ PyDict.get after "bob" = Some []
  /\ streak after "bob" "1.1.1.1" = None.
Proof.
  assert (Hwf : table_wf Sample.old_streaks).
  { split.
    - repeat constructor; simpl; intuition discriminate.
    - intros u m. simpl.
      destruct (String.eqb u "bob"); [intros [= <-]|];
        [|destruct (String.eqb u "carol"); [intros [= <-]|discriminate]];
        repeat constructor; simpl; intuition discriminate. }
  pose proof (C2_empty_active_set Sample.idle "carol" Hwf) as Hcarol.
  pose proof (C2_empty_active_set Sample.idle "bob" Hwf) as Hbob.
  split; [|split].
  - apply Hcarol. reflexivity.
  - apply (proj1 (proj2 Hbob) {| name := "bob"; ip := [] |}); reflexivity.
  - apply (proj2 (proj2 Hbob)). intros a. reflexivity.
Defined.

(** C2, as stated, fails: bob is in the snapshot without any address, so
    his active set is empty, yet the table still has an entry for him after
    the update, with an empty mapping. *)
Lemma C2_counterexample :
  (forall a, is_active Sample.idle "bob" a = false)
  /\ PyDict.get (_update_ip_streaks Sample.old_streaks
                   (fst (check_ip_used Sample.idle))) "bob" <> None.
Proof. split; [intros a; reflexivity | discriminate]. Qed.

(** C3.  After the summary line is appended to the per-user blocks, the
    sequence is cut into consecutive chunks of at least 1 and at most 50
    items, every chunk is joined with a blank line and handed to
    [send_logs] once, in order, between the log lines of the snapshot and
    the limit enforcement.  An input that gives 120 report blocks gives
    exactly three dispatches of the report, carrying 50, 50 and 20 report
    blocks, the last 20 followed by the summary line; and a sequence of 120
    items is cut into chunks of 50, 50 and 20 items. *)
Theorem C3_report_chunking `{RT : PyRuntime} (PanelType : Type)
    (disable_user : PanelType -> UserType -> option exn)
    (config_data : config) (panel_data : PanelType) (g : globals) :
  let o := check_users_usage disable_user config_data panel_data g in
  let streaks := IP_STREAKS (final o) in
  let blocks := _format_streak_messages streaks in
  let messages := (blocks ++ [summary_line streaks])%list in
  trace o
  = (snd (check_ip_used (ACTIVE_USERS g))
     ++ map (fun chunk => SendLogs (join (LF ++ LF) chunk)) (chunks messages)
     ++ match GENERAL_LIMIT config_data with
        | Some limit_number =>
            fst (enforce disable_user panel_data
                   (get_default (EXCEPT_USERS config_data) [])
                   (get_default (SPECIAL_LIMIT config_data) [])
                   limit_number streaks)
        | None => []
        end)%list
  /\ List.concat (chunks messages) = messages
  /\ Forall (fun chunk => 1 <= List.length chunk <= 50) (chunks messages)
  /\ (List.length blocks = 120 ->
      exists first second third,
        blocks = (first ++ second ++ third)%list
        /\ List.length first = 50
        /\ List.length second = 50
        /\ List.length third = 20
        /\ chunks messages = [first; second; (third ++ [summary_line streaks])%list]
        /\ map (fun chunk => SendLogs (join (LF ++ LF) chunk)) (chunks messages)
           = [SendLogs (join (LF ++ LF) first);
              SendLogs (join (LF ++ LF) second);
              SendLogs (join (LF ++ LF) (third ++ [summary_line streaks]))])
  /\ (List.length messages = 120 ->
      map (@List.length string) (chunks messages) = [50; 50; 20]).
Proof.
  intros o streaks blocks messages.
  split; [|split; [|split; [|split]]].
  - subst messages blocks streaks o. rewrite cycle_trace, cycle_table.
    unfold shorter_messages, report_messages. rewrite map_map. reflexivity.
  - destruct (chunks_sizes (List.length messages / 50) messages
                (r := List.length messages mod 50)) as [_ Hc].
    + rewrite Nat.mul_comm. apply Nat.div_mod_eq.
    + apply Nat.mod_upper_bound. discriminate.
    + exact Hc.
  - apply chunks_bounds.
  - intros H.
    exists (firstn 50 blocks), (firstn 50 (skipn 50 blocks)), (skipn 100 blocks).
    assert (Hsplit : blocks = (firstn 50 blocks ++ firstn 50 (skipn 50 blocks)
                               ++ skipn 100 blocks)%list).
    { rewrite <- (firstn_skipn 50 blocks) at 1. f_equal.
      rewrite <- (firstn_skipn 50 (skipn 50 blocks)) at 1. f_equal.
      now rewrite skipn_skipn. }
    assert (Hchunks : chunks messages
                      = [firstn 50 blocks; firstn 50 (skipn 50 blocks);
                         (skipn 100 blocks ++ [summary_line streaks])%list])
      by (unfold messages; now apply chunks_120).
    split; [exact Hsplit|].
    split; [rewrite length_firstn; lia|].
    split; [rewrite length_firstn, length_skipn; lia|].
    split; [rewrite length_skipn; lia|].
    split; [exact Hchunks|]. now rewrite Hchunks.
  - intros H.
    destruct (chunks_sizes 2 messages (r := 20)) as [Hs _]; [exact H|lia|].
    exact Hs.
Qed.

Lemma C3_report_chunking_witness :
  let o := check_users_usage Sample.panel_ok Sample.limits tt Sample.crowded in
  let o' := check_users_usage Sample.panel_ok Sample.limits tt Cases.crowded_119 in
  List.length (dispatched (trace o)) = 3
  /\ map (@List.length string)
       (chunks (_format_streak_messages (IP_STREAKS (final o'))
                ++ [summary_line (IP_STREAKS (final o'))])%list)
     = [50; 50; 20].
Proof.
  intros o o'.
  destruct (C3_report_chunking Sample.panel_ok Sample.limits tt Sample.crowded)
    as (Htrace & _ & _ & H120 & _).
  destruct (C3_report_chunking Sample.panel_ok Sample.limits tt Cases.crowded_119)
    as (_ & _ & _ & _ & Hitems).
  assert (H : List.length (_format_streak_messages (IP_STREAKS (final o))) = 120)
    by (vm_compute; reflexivity).
  assert (H' : List.length (_format_streak_messages (IP_STREAKS (final o'))
                            ++ [summary_line (IP_STREAKS (final o'))])%list = 120)
    by (vm_compute; reflexivity).
  split; [|exact (Hitems H')].
  destruct (H120 H) as (first & second & third & _ & _ & _ & _ & _ & Hsent).
  unfold o. rewrite Htrace, Hsent.
  rewrite !dispatched_app, (logs_dispatched (check_ip_used_logs _)).
  vm_compute. reflexivity.
Defined.

(** C4. In a cycle that has a general limit to read and a panel that fails
    by value errors only, take a user of the streak table who is not
    exempt.  The user's entry has one address for each distinct address of
    the user's snapshot, and the limit in force is the override of
    [SPECIAL_LIMIT] when there is one and [GENERAL_LIMIT] otherwise.  When
    the number of addresses is strictly greater than that limit, the turn
    of the loop for this user logs the warning, notifies the admins and
    calls the panel for the user, in this order; when it is not, that turn
    does nothing at all.  Over the whole cycle the warnings logged, the
    notifications sent after the report, and the users handed to the panel
    are those of the entries over their limit, one each and in the order of
    the table, and this user's entry is one of them exactly when the number
    of addresses is strictly greater than the limit. *)
Theorem C4_limit_evaluation `{RT : PyRuntime} (PanelType : Type)
    (disable_user : PanelType -> UserType -> option exn)
    (config_data : config) (panel_data : PanelType) (g : globals)
    (limit_number : Z) (user_name : string) (ip_map : dict Z) :
  let o := check_users_usage disable_user config_data panel_data g in
  let streaks := IP_STREAKS (final o) in
  let except_users := get_default (EXCEPT_USERS config_data) [] in
  let special_limit := get_default (SPECIAL_LIMIT config_data) [] in
  let effective_limit :=
    match PyDict.get special_limit user_name with
    | Some override => override
    | None => limit_number
    end in
  let active_ip_count := Z.of_nat (List.length ip_map) in
  let over := filter (over_limit except_users special_limit limit_number) streaks in
  let turn :=
    turn_events disable_user panel_data except_users special_limit limit_number in
  table_wf (IP_STREAKS g) ->
  GENERAL_LIMIT config_data = Some limit_number ->
  (forall user, survived (disable_user panel_data user) = true) ->
  PyDict.get streaks user_name = Some ip_map ->
  str_in user_name except_users = false ->
  raised o = None
  /\ (exists data, PyDict.get (ACTIVE_USERS g) user_name = Some data
                   /\ List.length ip_map = List.length (unique_ips (ip data)))
  /\ (In user_name (disabled (trace o)) <-> (effective_limit < active_ip_count)%Z)
  /\ ((effective_limit < active_ip_count)%Z ->
      exists before after,
        trace o
        = (before
           ++ [LogWarning (warning_message user_name ip_map);
               SendLogs ("<b>Warning: </b>" ++ warning_message user_name ip_map);
               DisableUser {| name := user_name; ip := [] |}]
           ++ after)%list)
  /\ (exists earlier later,
        streaks = (earlier ++ (user_name, ip_map) :: later)%list
        /\ ~ In user_name (PyDict.keys earlier)
        /\ ~ In user_name (PyDict.keys later)
        /\ trace o
           = (snd (check_ip_used (ACTIVE_USERS g))
              ++ map SendLogs (shorter_messages streaks)
              ++ flat_map turn earlier
              ++ (if (effective_limit <? active_ip_count)%Z
                  then [LogWarning (warning_message user_name ip_map);
                        SendLogs ("<b>Warning: </b>"
                                  ++ warning_message user_name ip_map);
                        DisableUser {| name := user_name; ip := [] |}]
                       ++ diagnostics
                            (disable_user panel_data {| name := user_name; ip := [] |})
                  else [])
              ++ flat_map turn later)%list)
  /\ warned (trace o) = map (fun kv => warning_message (fst kv) (snd kv)) over
  /\ dispatched (trace o)
     = (shorter_messages streaks
        ++ map (fun kv => ("<b>Warning: </b>"
                           ++ warning_message (fst kv) (snd kv))%string) over)%list
  /\ disabled (trace o) = map fst over
  /\ (forall m, In (user_name, m) over
                <-> m = ip_map /\ (effective_limit < active_ip_count)%Z).
Proof.
  intros o streaks except_users special_limit effective_limit active_ip_count
         over turn Hwf Hlim Hpanel Hentry Hexempt.
  subst turn over effective_limit active_ip_count special_limit except_users streaks.
  set (streaks := IP_STREAKS (final o)) in *.
  set (except_users := get_default (EXCEPT_USERS config_data) []) in *.
  set (special_limit := get_default (SPECIAL_LIMIT config_data) []) in *.
  set (effective_limit := match PyDict.get special_limit user_name with
                          | Some override => override
                          | None => limit_number
                          end).
  set (active_ip_count := Z.of_nat (List.length ip_map)).
  set (turn := turn_events disable_user panel_data except_users special_limit
                 limit_number).
  set (flagged := over_limit except_users special_limit limit_number).
  assert (Hret : raised o = None) by (eapply cycle_returns; eauto).
  pose proof (cycle_table disable_user config_data panel_data g) as Htab.
  pose proof (cycle_trace disable_user config_data panel_data g) as Htrace.
  pose proof (cycle_raised disable_user config_data panel_data g) as Hraised.
  fold o in Htab, Htrace, Hraised.
  rewrite Hlim, <- Htab in Htrace, Hraised.
  fold streaks except_users special_limit in Htrace, Hraised.
  rewrite Hret in Hraised. symmetry in Hraised.
  rewrite (enforce_returns _ _ _ _ _ _ Hraised) in Htrace. fold turn in Htrace.
  assert (Hwf' : table_wf streaks).
  { unfold streaks. rewrite Htab. now apply update_wf. }
  assert (Hflag : flagged (user_name, ip_map)
                  = (effective_limit <? active_ip_count)%Z).
  { unfold flagged, over_limit. cbn [fst snd]. now rewrite Hexempt. }
  assert (Hin : In (user_name, ip_map) streaks)
    by now apply PyDictFacts.get_Some_In.
  assert (Hturn : turn (user_name, ip_map)
                  = if (effective_limit <? active_ip_count)%Z
                    then ([LogWarning (warning_message user_name ip_map);
                           SendLogs ("<b>Warning: </b>"
                                     ++ warning_message user_name ip_map);
                           DisableUser {| name := user_name; ip := [] |}]
                          ++ diagnostics
                               (disable_user panel_data
                                  {| name := user_name; ip := [] |}))%list
                    else []).
  { unfold turn, turn_events. fold flagged. rewrite Hflag.
    now destruct (effective_limit <? active_ip_count)%Z. }
  assert (Hover : forall m, In (user_name, m) (filter flagged streaks)
                            <-> m = ip_map /\ (effective_limit < active_ip_count)%Z).
  { intros m. rewrite filter_In. split.
    - intros [Hm Hf]. apply PyDictFacts.In_get in Hm; [|exact (proj1 Hwf')].
      rewrite Hentry in Hm. injection Hm as <-. split; [reflexivity|].
      apply Z.ltb_lt. now rewrite <- Hflag.
    - intros [-> Hlt]. split; [exact Hin|]. rewrite Hflag. now apply Z.ltb_lt. }
  assert (Hdis : disabled (trace o) = map fst (filter flagged streaks)).
  { rewrite Htrace, !disabled_app, disabled_sent.
    rewrite (logs_disabled (check_ip_used_logs _)). cbn [app].
    apply disabled_flat_map. }
  split; [exact Hret|].
  split.
  { apply update_entry_origin with (t := IP_STREAKS g); [assumption|].
    unfold streaks in Hentry. now rewrite Htab in Hentry. }
  split.
  { rewrite Hdis, in_map_iff. split.
    - intros ([u m] & <- & Hm). cbn [fst] in Hm. now apply Hover in Hm.
    - intros Hlt. exists (user_name, ip_map). split; [reflexivity|].
      now apply Hover. }
  split.
  { intros H.
    destruct (flat_map_split turn _ _ Hin) as (before & after & Hsplit).
    rewrite Htrace, Hsplit, Hturn.
    apply Z.ltb_lt in H. rewrite H.
    exists (snd (check_ip_used (ACTIVE_USERS g))
            ++ map SendLogs (shorter_messages streaks) ++ before)%list,
           (diagnostics (disable_user panel_data {| name := user_name; ip := [] |})
            ++ after)%list.
    rewrite <- !app_assoc. reflexivity. }
  split.
  { destruct (@entry_split _ _ _ _ (proj1 Hwf') Hentry)
      as (earlier & later & Hs & He & Hl).
    exists earlier, later. split; [exact Hs|split; [exact He|split; [exact Hl|]]].
    rewrite Htrace. do 2 f_equal.
    rewrite Hs at 1. rewrite flat_map_app. cbn [flat_map].
    now rewrite Hturn. }
  split.
  { rewrite Htrace, !warned_app, warned_sent.
    rewrite (warned_logs (check_ip_used_logs _)). cbn [app].
    apply warned_flat_map. }
  split.
  { rewrite Htrace, !dispatched_app, dispatched_sent.
    rewrite (logs_dispatched (check_ip_used_logs _)). cbn [app]. f_equal.
    apply dispatched_flat_map. }
  split; [exact Hdis|exact Hover].
Qed.

Lemma C4_limit_evaluation_witness :
  let o := check_users_usage Sample.panel_ok Sample.limits tt Sample.polled_busy in
  ~ In "alice" (disabled (trace o))
  /\ In "bob" (disabled (trace o))
  /\ warned (trace o)
     = ["User bob has 4 active ips. {'2.2.2.1', '2.2.2.2', '2.2.2.3', '2.2.2.4'}"]
  /\ dispatched (trace o)
     = (shorter_messages (IP_STREAKS (final o))
        ++ ["<b>Warning: </b>User bob has 4 active ips. {'2.2.2.1', '2.2.2.2', '2.2.2.3', '2.2.2.4'}"])%list
  /\ List.length (shorter_messages (IP_STREAKS (final o))) = 1
  /\ disabled (trace o) = ["bob"].
Proof.
  intros o.
  assert (Hwf : table_wf (IP_STREAKS Sample.polled_busy))
    by (split; [constructor | discriminate]).
  assert (Hlim : GENERAL_LIMIT Sample.limits = Some 3%Z) by reflexivity.
  assert (Hpanel : forall user, survived (Sample.panel_ok tt user) = true)
    by reflexivity.
  assert (Ha : PyDict.get (IP_STREAKS (final o)) "alice" = Some Sample.alice_entry)
    by (vm_compute; reflexivity).
  assert (Hb : PyDict.get (IP_STREAKS (final o)) "bob" = Some Sample.bob_entry)
    by (vm_compute; reflexivity).
  assert (Hea : str_in "alice" (get_default (EXCEPT_USERS Sample.limits) []) = false)
    by (vm_compute; reflexivity).
  assert (Heb : str_in "bob" (get_default (EXCEPT_USERS Sample.limits) []) = false)
    by (vm_compute; reflexivity).
  pose proof (@C4_limit_evaluation insertion_order_runtime unit Sample.panel_ok
                Sample.limits tt Sample.polled_busy 3%Z "alice" Sample.alice_entry
                Hwf Hlim Hpanel Ha Hea) as (_ & _ & [Halice _] & _).
  pose proof (@C4_limit_evaluation insertion_order_runtime unit Sample.panel_ok
                Sample.limits tt Sample.polled_busy 3%Z "bob" Sample.bob_entry
                Hwf Hlim Hpanel Hb Heb)
    as (_ & _ & [_ Hbob] & _ & _ & Hwarned & Hsent & Hdisabled & _).
  split; [|split; [|split; [|split; [|split]]]].
  - intros Hin. specialize (Halice Hin). vm_compute in Halice. discriminate Halice.
  - apply Hbob. vm_compute. reflexivity.
  - unfold o. rewrite Hwarned. vm_compute. reflexivity.
  - unfold o. rewrite Hsent. apply f_equal. vm_compute. reflexivity.
  - vm_compute. reflexivity.
  - unfold o. rewrite Hdisabled. vm_compute. reflexivity.
Defined.

(** C5. Over any number of cycles, with whatever snapshot, configuration
    and panel each of them finds, a user who is in [EXCEPT_USERS] in each
    cycle's configuration is never handed to the disable action; and in
    every cycle the loop over the table does exactly what it would do if
    the exempt user had no entry in the table, so no warning and no
    notification is ever made for that user either, however many addresses
    the user has. *)
Theorem C5_exempt_users_untouched `{RT : PyRuntime} (PanelType : Type)
    (cycles : list (surroundings PanelType)) (panel_data : PanelType)
    (g : globals) (user_name : string) :
  (forall c, In c cycles ->
             str_in user_name (get_default (EXCEPT_USERS (cycle_config c)) []) = true) ->
  let o := run_check_users_usage cycles panel_data g in
  ~ In user_name (disabled (trace o))
  /\ (forall ips, ~ In (DisableUser {| name := user_name; ip := ips |}) (trace o))
  /\ (forall c limit_number table,
        In c cycles ->
        enforce (disable_user_now c) panel_data
          (get_default (EXCEPT_USERS (cycle_config c)) [])
          (get_default (SPECIAL_LIMIT (cycle_config c)) []) limit_number table
        = enforce (disable_user_now c) panel_data
            (get_default (EXCEPT_USERS (cycle_config c)) [])
            (get_default (SPECIAL_LIMIT (cycle_config c)) []) limit_number
            (filter (fun item => negb (String.eqb (fst item) user_name)) table)).
Proof.
  intros Hex o.
  assert (Hnone : ~ In user_name (disabled (trace o))) by now apply run_exempt.
  split; [exact Hnone|split].
  - intros ips Hin. apply Hnone.
    now apply (disabled_In _ {| name := user_name; ip := ips |}).
  - intros c limit_number table Hc. apply enforce_without. now apply Hex.
Qed.

Lemma C5_exempt_users_untouched_witness :
  ~ In "carol"
      (disabled (trace (run_check_users_usage Sample.two_cycles tt
                          {| ACTIVE_USERS := []; IP_STREAKS := [] |}))).
Proof.
  assert (Hex : forall c, In c Sample.two_cycles ->
                 str_in "carol" (get_default (EXCEPT_USERS (cycle_config c)) []) = true)
    by (intros c [<-|[<-|[]]]; vm_compute; reflexivity).
  exact (proj1 (@C5_exempt_users_untouched insertion_order_runtime unit
                  Sample.two_cycles tt {| ACTIVE_USERS := []; IP_STREAKS := [] |}
                  "carol" Hex)).
Defined.

(** C6. Let the loop over the table reach a user who is over the limit, and
    let the disable action fail for that user with a value error.  Then the
    error is printed right after the call and is not raised by the cycle;
    the loop goes on with the users after that one, and the cycle ends as
    the loop over those users ends, never by a value error; the streak
    table is still what the streak update made of it, and the panel is
    asked to disable that user once, not again before or after. *)
Theorem C6_disable_failure_contained `{RT : PyRuntime} (PanelType : Type)
    (disable_user : PanelType -> UserType -> option exn)
    (config_data : config) (panel_data : PanelType) (g : globals)
    (limit_number : Z) (handled rest : list (string * dict Z))
    (user_name : string) (ip_map : dict Z) (error : string) :
  let o := check_users_usage disable_user config_data panel_data g in
  let except_users := get_default (EXCEPT_USERS config_data) [] in
  let special_limit := get_default (SPECIAL_LIMIT config_data) [] in
  let loop := enforce disable_user panel_data except_users special_limit limit_number in
  table_wf (IP_STREAKS g) ->
  GENERAL_LIMIT config_data = Some limit_number ->
  IP_STREAKS (final o) = (handled ++ (user_name, ip_map) :: rest)%list ->
  snd (loop handled) = None ->
  over_limit except_users special_limit limit_number (user_name, ip_map) = true ->
  disable_user panel_data {| name := user_name; ip := [] |} = Some (ValueError error) ->
  trace o
  = (snd (check_ip_used (ACTIVE_USERS g))
     ++ map SendLogs (shorter_messages (IP_STREAKS (final o)))
     ++ fst (loop handled)
     ++ [LogWarning (warning_message user_name ip_map);
         SendLogs ("<b>Warning: </b>" ++ warning_message user_name ip_map);
         DisableUser {| name := user_name; ip := [] |};
         Print error]
     ++ fst (loop rest))%list
  /\ raised o = snd (loop rest)
  /\ (forall msg, raised o <> Some (ValueError msg))
  /\ (snd (loop rest) = None -> ACTIVE_USERS (final o) = [])
  /\ IP_STREAKS (final o)
     = _update_ip_streaks (IP_STREAKS g) (fst (check_ip_used (ACTIVE_USERS g)))
  /\ ~ In user_name (disabled (fst (loop handled)))
  /\ ~ In user_name (disabled (fst (loop rest))).
Proof.
  intros o except_users special_limit loop Hwf Hlim Htable Hhandled Hflag Hfail.
  pose proof (cycle_table disable_user config_data panel_data g) as Htab.
  pose proof (cycle_trace disable_user config_data panel_data g) as Htrace.
  pose proof (cycle_raised disable_user config_data panel_data g) as Hraised.
  pose proof (cycle_snapshot disable_user config_data panel_data g) as Hsnap.
  fold o in Htab, Htrace, Hraised, Hsnap.
  rewrite Hlim, <- Htab in Htrace, Hraised.
  fold except_users special_limit in Htrace, Hraised. fold loop in Htrace, Hraised.
  assert (Hloop : loop (IP_STREAKS (final o))
                  = ((fst (loop handled)
                      ++ flag_events user_name ip_map ++ Print error :: fst (loop rest))%list,
                     snd (loop rest))).
  { rewrite Htable. unfold loop. rewrite enforce_app by exact Hhandled.
    rewrite enforce_flag by exact Hflag.
    unfold turn_events. rewrite Hflag. cbn [fst snd]. rewrite Hfail.
    cbn [survived fst snd diagnostics]. now rewrite <- !app_assoc. }
  assert (Hnd : NoDup (PyDict.keys (handled ++ (user_name, ip_map) :: rest)%list)).
  { rewrite <- Htable, Htab. now apply update_wf. }
  unfold PyDict.keys in Hnd. rewrite map_app in Hnd. cbn [map fst] in Hnd.
  pose proof (@NoDup_remove_2 _ _ _ _ Hnd) as Hout.
  split; [|split; [|split; [|split; [|split; [|split]]]]].
  - rewrite Htrace, Hloop. reflexivity.
  - now rewrite Hraised, Hloop.
  - intros msg. rewrite Hraised, Hloop. cbn [snd]. apply enforce_no_value_error.
  - intros Hrest. rewrite Hsnap, Hraised, Hloop. cbn [snd]. now rewrite Hrest.
  - exact Htab.
  - intros Hin. apply enforce_disabled_keys in Hin. apply Hout, in_or_app. now left.
  - intros Hin. apply enforce_disabled_keys in Hin. apply Hout, in_or_app. now right.
Qed.

Lemma C6_disable_failure_contained_witness :
  let o := check_users_usage Sample.panel_fails_for_bob Sample.strict tt
             Sample.polled_busy in
  raised o = None
  /\ ACTIVE_USERS (final o) = []
  /\ disabled (trace o) = ["bob"; "dave"].
Proof.
  intros o.
  set (loop := enforce Sample.panel_fails_for_bob tt
                 (get_default (EXCEPT_USERS Sample.strict) [])
                 (get_default (SPECIAL_LIMIT Sample.strict) []) 1%Z).
  assert (Hwf : table_wf (IP_STREAKS Sample.polled_busy))
    by (split; [constructor | discriminate]).
  assert (Hlim : GENERAL_LIMIT Sample.strict = Some 1%Z) by reflexivity.
  assert (Htable : IP_STREAKS (final o)
                   = ([("alice", Sample.alice_entry)]
                      ++ ("bob", Sample.bob_entry)
                      :: [("carol", Sample.carol_entry); ("dave", Sample.dave_entry)])%list)
    by (vm_compute; reflexivity).
  assert (Hhandled : snd (loop [("alice", Sample.alice_entry)]) = None)
    by (vm_compute; reflexivity).
  assert (Hflag : over_limit (get_default (EXCEPT_USERS Sample.strict) [])
                    (get_default (SPECIAL_LIMIT Sample.strict) []) 1%Z
                    ("bob", Sample.bob_entry) = true)
    by (vm_compute; reflexivity).
  assert (Hfail : Sample.panel_fails_for_bob tt {| name := "bob"; ip := [] |}
                  = Some (ValueError "bob: 500"))
    by (vm_compute; reflexivity).
  pose proof (@C6_disable_failure_contained insertion_order_runtime unit
                Sample.panel_fails_for_bob Sample.strict tt Sample.polled_busy 1%Z
                [("alice", Sample.alice_entry)]
                [("carol", Sample.carol_entry); ("dave", Sample.dave_entry)]
                "bob" Sample.bob_entry "bob: 500"
                Hwf Hlim Htable Hhandled Hflag Hfail)
    as (Htrace & Hraised & _ & Hsnap & _).
  assert (Hrest : snd (loop [("carol", Sample.carol_entry); ("dave", Sample.dave_entry)])
                  = None)
    by (vm_compute; reflexivity).
  split; [|split].
  - exact (eq_trans Hraised Hrest).
  - exact (Hsnap Hrest).
  - unfold o. rewrite Htrace. vm_compute. reflexivity.
Defined.

(** C7. When [check_users_usage] returns, [ACTIVE_USERS] is empty, and
    [IP_STREAKS] is what the streak update of this cycle made of it: nothing
    after the update touches the table.  The table is that also when the
    cycle ends by an exception. *)
Theorem C7_end_of_cycle `{RT : PyRuntime} (PanelType : Type)
    (disable_user : PanelType -> UserType -> option exn)
    (config_data : config) (panel_data : PanelType) (g : globals) :
  let o := check_users_usage disable_user config_data panel_data g in
  IP_STREAKS (final o)
  = _update_ip_streaks (IP_STREAKS g) (fst (check_ip_used (ACTIVE_USERS g)))
  /\ (raised o = None -> ACTIVE_USERS (final o) = []).
Proof.
  intros o. split; [apply cycle_table|].
  intros H. unfold o in *. now rewrite cycle_snapshot, H.
Qed.

Lemma C7_end_of_cycle_witness :
  let o := check_users_usage Sample.panel_ok Sample.limits tt
             {| ACTIVE_USERS := Sample.busy; IP_STREAKS := Sample.old_streaks |} in
  ACTIVE_USERS (final o) = []
  /\ IP_STREAKS (final o)
     = _update_ip_streaks Sample.old_streaks (fst (check_ip_used Sample.busy)).
Proof.
  intros o.
  pose proof (C7_end_of_cycle Sample.panel_ok Sample.limits tt
                {| ACTIVE_USERS := Sample.busy; IP_STREAKS := Sample.old_streaks |})
    as [Htable Hsnap].
  split; [apply Hsnap; reflexivity | exact Htable].
Defined.

(** C8. [check_ip_used] maps every user of the session snapshot, and no one
    else, to the distinct addresses of the user's occurrence list in the
    order of their first occurrence: the result has each address of the
    list once, the first address of the list comes first and is followed by
    the reduction of the rest without it, which is first-seen-first-kept;
    an empty occurrence list gives an empty list, and
    ["3.3.3.3"; "1.1.1.1"; "3.3.3.3"] gives ["3.3.3.3"; "1.1.1.1"].  The
    function is total. *)
Theorem C8_check_ip_used `{RT : PyRuntime}
    (active : dict UserType) (user : string) :
  PyDict.get (fst (check_ip_used active)) user
  = option_map (fun data => unique_ips (ip data)) (PyDict.get active user)
  /\ (forall xs, NoDup (unique_ips xs))
  /\ (forall xs x, In x (unique_ips xs) <-> In x xs)
  /\ (forall xs, unique_ips xs = first_seen [] xs)
  /\ (forall x xs,
       unique_ips (x :: xs)
       = x :: filter (fun y => negb (String.eqb y x)) (unique_ips xs))
  /\ unique_ips [] = []
  /\ unique_ips ["3.3.3.3"; "1.1.1.1"; "3.3.3.3"] = ["3.3.3.3"; "1.1.1.1"].
Proof.
  split; [apply check_ip_used_get|].
  split; [apply unique_ips_NoDup|].
  split; [apply unique_ips_In|].
  split; [apply unique_ips_first_seen|].
  split; [apply unique_ips_cons|].
  split; reflexivity.
Qed.

(** C9. [_ru_plurals_logs] follows the Russian rule for every integer, read
    on the decimal digits of the count (the code takes the absolute value
    first, which changes nothing for a count that is not negative): last
    two digits 11 to 14 give the plural-genitive form; else a last digit 1
    gives the singular, a last digit 2 to 4 the plural, and anything else
    the plural-genitive; and the twelve counts listed map to the twelve
    forms listed. *)
Theorem C9_ru_plurals_logs (n : Z) :
  let count := Z.abs n in
  ((11 <= count mod 100 <= 14)%Z -> _ru_plurals_logs n = "логов")
  /\ (~ (11 <= count mod 100 <= 14)%Z -> (count mod 10 = 1)%Z ->
      _ru_plurals_logs n = "лог")
  /\ (~ (11 <= count mod 100 <= 14)%Z -> (2 <= count mod 10 <= 4)%Z ->
      _ru_plurals_logs n = "лога")
  /\ (~ (11 <= count mod 100 <= 14)%Z -> (count mod 10 <> 1)%Z ->
      ~ (2 <= count mod 10 <= 4)%Z -> _ru_plurals_logs n = "логов")
  /\ ((0 <= n)%Z -> count = n)
  /\ map _ru_plurals_logs [1; 2; 3; 4; 5; 11; 12; 21; 22; 101; 111; 112]%Z
     = ["лог"; "лога"; "лога"; "лога"; "логов"; "логов"; "логов"; "лог"; "лога";
        "лог"; "логов"; "логов"].
Proof.
  intros count. unfold _ru_plurals_logs. fold count.
  split; [|split; [|split; [|split; [|split; [apply Z.abs_eq|reflexivity]]]]].
  - intros [H1 H2].
    apply Z.leb_le in H1, H2. now rewrite H1, H2.
  - intros Hteen Hlast.
    destruct (11 <=? count mod 100)%Z eqn:E1, (count mod 100 <=? 14)%Z eqn:E2;
      cbn [andb]; try (apply Z.eqb_eq in Hlast; now rewrite Hlast).
    apply Z.leb_le in E1, E2. lia.
  - intros Hteen Hlast.
    assert (E : ((11 <=? count mod 100) && (count mod 100 <=? 14))%Z = false).
    { apply andb_false_iff. rewrite !Z.leb_gt. lia. }
    rewrite E.
    destruct (Z.eqb_spec (count mod 10) 1) as [E1|_]; [lia|].
    destruct Hlast as [H1 H2]. apply Z.leb_le in H1, H2. now rewrite H1, H2.
  - intros Hteen Hone Hfew.
    assert (E : ((11 <=? count mod 100) && (count mod 100 <=? 14))%Z = false).
    { apply andb_false_iff. rewrite !Z.leb_gt. lia. }
    rewrite E.
    destruct (Z.eqb_spec (count mod 10) 1) as [E1|_]; [contradiction|].
    destruct (2 <=? count mod 10)%Z eqn:E2, (count mod 10 <=? 4)%Z eqn:E3;
      cbn [andb]; try reflexivity.
    apply Z.leb_le in E2, E3. lia.
Qed.

Lemma C9_ru_plurals_logs_witness :
  _ru_plurals_logs 112 = "логов" /\ _ru_plurals_logs (-21) = "лог"
  /\ _ru_plurals_logs 1003 = "лога" /\ _ru_plurals_logs 40 = "логов".
Proof.
  split; [|split; [|split]].
  - apply (proj1 (C9_ru_plurals_logs 112)). cbn. lia.
  - apply (proj1 (proj2 (C9_ru_plurals_logs (-21)))); cbn; lia.
  - apply (proj1 (proj2 (proj2 (C9_ru_plurals_logs 1003)))); cbn; lia.
  - apply (proj1 (proj2 (proj2 (proj2 (C9_ru_plurals_logs 40))))); cbn; lia.
Defined.

(** C10. Every cycle dispatches the summary line: the report always has a
    last chunk and that chunk ends with the summary line, which reports the
    sum over all users of the number of addresses in their streak entry, so
    at least one message is dispatched, also when the cycle ends by an
    exception.  When the formatter returns no block, the report is one
    message, the summary line with the count 0; when the streak table is
    empty, that message is the only one dispatched in the whole cycle. *)
Theorem C10_summary_always_sent `{RT : PyRuntime} (PanelType : Type)
    (disable_user : PanelType -> UserType -> option exn)
    (config_data : config) (panel_data : PanelType) (g : globals) :
  let o := check_users_usage disable_user config_data panel_data g in
  let streaks := IP_STREAKS (final o) in
  let total_ips := sum_nat (map (@List.length (string * Z)) (PyDict.values streaks)) in
  let summary :=
    "---------" ++ LF ++ "Всего активных IP: <b>" ++ str_of_nat total_ips ++ "</b>" in
  (exists earlier chunk warnings,
      dispatched (trace o)
      = (map (join (LF ++ LF)) (earlier ++ [(chunk ++ [summary])%list]) ++ warnings)%list
      /\ chunks (_format_streak_messages streaks ++ [summary])%list
         = (earlier ++ [(chunk ++ [summary])%list])%list)
  /\ 1 <= List.length (dispatched (trace o))
  /\ (_format_streak_messages streaks = [] ->
      total_ips = 0 /\ shorter_messages streaks = [summary])
  /\ (streaks = [] -> dispatched (trace o) = [summary]).
Proof.
  intros o streaks total_ips summary.
  destruct (cycle_dispatched disable_user config_data panel_data g)
    as (warnings & Hd & Hw).
  fold o in Hd, Hw. fold streaks in Hd, Hw.
  destruct (chunks_last (_format_streak_messages streaks) summary)
    as (earlier & chunk & Hlast).
  assert (Hshort : shorter_messages streaks
                   = map (join (LF ++ LF)) (earlier ++ [(chunk ++ [summary])%list])).
  { unfold shorter_messages, report_messages. now rewrite <- Hlast. }
  split; [|split; [|split]].
  - exists earlier, chunk, warnings. split; [|exact Hlast]. now rewrite Hd, Hshort.
  - rewrite Hd, Hshort, length_app, length_map, length_app. simpl. lia.
  - intros Hnone. pose proof (empty_report streaks Hnone) as Hrep.
    assert (Hzero : total_ips = 0).
    { unfold total_ips. apply total_of_empty. intros u m Hin.
      apply (format_blocks_nil _ Hnone u m). now apply In_sorted_desc. }
    split; [exact Hzero|].
    unfold shorter_messages. rewrite Hrep. unfold summary. rewrite Hzero. reflexivity.
  - intros Hempty. rewrite Hd, (Hw Hempty), app_nil_r.
    unfold summary, total_ips. rewrite Hempty. reflexivity.
Qed.

Lemma C10_summary_always_sent_witness :
  let o := check_users_usage Sample.panel_ok Sample.limits tt
             {| ACTIVE_USERS := []; IP_STREAKS := Sample.old_streaks |} in
  dispatched (trace o) = ["---------" ++ LF ++ "Всего активных IP: <b>0</b>"].
Proof.
  intros o.
  destruct (C10_summary_always_sent Sample.panel_ok Sample.limits tt
              {| ACTIVE_USERS := []; IP_STREAKS := Sample.old_streaks |})
    as (_ & _ & _ & H).
  apply H. reflexivity.
Defined.

(** * Further properties *)

(** ** De-duplication *)

Lemma first_seen_fresh (xs seen : list string) :
  NoDup xs -> (forall x, In x xs -> ~ In x seen) -> first_seen seen xs = xs.
Proof.
  intros Hnd. revert seen. induction Hnd as [|x r Hx Hnd IH]; intros seen Hfresh.
  - reflexivity.
  - cbn [first_seen].
    assert (E : str_in x seen = false)
      by (apply str_in_false, Hfresh; now left).
    rewrite E. f_equal. apply IH. intros y Hy [<-|Hs]; [contradiction|].
    apply (Hfresh y); [now right|assumption].
Qed.

Lemma first_seen_length (xs seen : list string) :
  List.length (first_seen seen xs) <= List.length xs.
Proof.
  revert seen. induction xs as [|x r IH]; intros seen; cbn [first_seen]; [lia|].
  destruct (str_in x seen); cbn [List.length].
  - specialize (IH seen). lia.
  - specialize (IH (x :: seen)). lia.
Qed.

(** X1. [list(dict.fromkeys(xs))] returns a list without duplicates as it
    is, so reducing twice is reducing once, and the result is never longer
    than the occurrence list. *)
Theorem X1_unique_ips_fixpoint (xs : list string) :
  (NoDup xs -> unique_ips xs = xs)
  /\ unique_ips (unique_ips xs) = unique_ips xs
  /\ List.length (unique_ips xs) <= List.length xs.
Proof.
  assert (Hfix : forall ys, NoDup ys -> unique_ips ys = ys).
  { intros ys Hnd. rewrite unique_ips_first_seen.
    apply first_seen_fresh; [assumption|]. intros y _ []. }
  split; [apply Hfix|split].
  - apply Hfix, unique_ips_NoDup.
  - rewrite unique_ips_first_seen. apply first_seen_length.
Qed.

Lemma X1_unique_ips_fixpoint_witness :
  unique_ips ["3.3.3.3"; "1.1.1.1"; "2.2.2.2"] = ["3.3.3.3"; "1.1.1.1"; "2.2.2.2"].
Proof.
  apply (proj1 (X1_unique_ips_fixpoint ["3.3.3.3"; "1.1.1.1"; "2.2.2.2"])).
  repeat constructor; simpl; intuition discriminate.
Defined.

(** ** The snapshot reducer, entry by entry *)

Lemma set_fresh {V : Type} (d : dict V) (k : string) (v : V) :
  PyDict.get d k = None -> PyDict.set d k v = (d ++ [(k, v)])%list.
Proof.
  induction d as [|[k0 v0] r IH]; simpl; [reflexivity|].
  destruct (String.eqb k k0); [discriminate|]. intros H. now rewrite IH.
Qed.

Lemma keys_app {V : Type} (d1 d2 : dict V) :
  PyDict.keys (d1 ++ d2)%list = (PyDict.keys d1 ++ PyDict.keys d2)%list.
Proof. apply map_app. Qed.

Section ReducerFacts.
Context `{RT : PyRuntime}.

Lemma snapshot_fold_exact (active rest : dict UserType)
    (acc : dict (list string) * list event) :
  (forall k data, In (k, data) rest -> PyDict.get active k = Some data) ->
  NoDup (PyDict.keys (fst acc) ++ PyDict.keys rest) ->
  fold_left (snapshot_user active) (PyDict.keys rest) acc
  = ((fst acc ++ map reduced_entry rest)%list,
     (snd acc ++ map snapshot_line rest)%list).
Proof.
  revert acc. induction rest as [|[k data] r IH]; intros [d logs] Hget Hnd.
  - cbn. now rewrite !app_nil_r.
  - cbn [PyDict.keys map fst fold_left]. cbn [fst snd] in Hnd.
    unfold snapshot_user at 2. rewrite (Hget k data) by now left.
    cbn [fst snd].
    assert (Hfresh : PyDict.get d k = None).
    { apply PyDictFacts.get_None. intros Hin.
      apply NoDup_remove_2 in Hnd. apply Hnd, in_or_app. now left. }
    rewrite set_fresh by assumption.
    fold (PyDict.keys r). rewrite IH.
    + cbn [fst snd]. rewrite <- !app_assoc. reflexivity.
    + intros k' data' Hin. apply Hget. now right.
    + cbn [fst]. rewrite keys_app. cbn [PyDict.keys map fst].
      rewrite <- app_assoc. exact Hnd.
Qed.

Lemma sum_reduced (active : dict UserType) :
  sum_nat (map (@List.length string) (PyDict.values (map reduced_entry active)))
  = sum_nat (map (fun kv => List.length (unique_ips (ip (snd kv)))) active).
Proof.
  unfold PyDict.values. rewrite !map_map. reflexivity.
Qed.
End ReducerFacts.

(** X2. For a snapshot (a dictionary, so its keys are unique)
    [check_ip_used] keeps the users in the order of the snapshot, each with
    the reduced list of the user's record, and logs one line per user in
    that order followed by one line with the total number of distinct
    addresses over all users. *)
Theorem X2_check_ip_used_exact `{RT : PyRuntime} (active : dict UserType) :
  PyDict.wf active ->
  check_ip_used active
  = (map (fun kv => (fst kv, unique_ips (ip (snd kv)))) active,
     (map (fun kv => LogInfo ("User snapshot: " ++ fst kv ++ " -> "
                              ++ str_of_list (unique_ips (ip (snd kv))))) active
      ++ [LogInfo ("Количество всех активных IP-адресов за прогон: "
                   ++ str_of_nat
                        (sum_nat (map (fun kv => List.length (unique_ips (ip (snd kv))))
                                      active)))])%list).
Proof.
  intros Hwf. unfold check_ip_used.
  rewrite (@snapshot_fold_exact _ active active ([], [])).
  - cbn [fst snd app]. now rewrite sum_reduced.
  - intros k data. now apply PyDictFacts.In_get.
  - exact Hwf.
Qed.

Lemma X2_check_ip_used_exact_witness :
  fst (check_ip_used Sample.busy)
  = [("alice", ["1.1.1.1"; "1.1.1.2"; "1.1.1.3"; "1.1.1.4"]);
     ("bob", ["2.2.2.1"; "2.2.2.2"; "2.2.2.3"; "2.2.2.4"]);
     ("carol", ["3.3.3.1"; "3.3.3.2"; "3.3.3.3"; "3.3.3.4"; "3.3.3.5"; "3.3.3.6"]);
     ("dave", ["4.4.4.1"; "4.4.4.2"])].
Proof.
  assert (Hwf : PyDict.wf Sample.busy)
    by (repeat constructor; simpl; intuition discriminate).
  rewrite (@X2_check_ip_used_exact insertion_order_runtime Sample.busy Hwf).
  reflexivity.
Defined.

(** ** The order of the streak table *)

Lemma filter_filter_str (P Q : string -> bool) (xs : list string) :
  filter P (filter Q xs) = filter (fun x => Q x && P x) xs.
Proof.
  induction xs as [|x r IH]; simpl; [reflexivity|].
  destruct (Q x); simpl; [destruct (P x)|]; now rewrite IH.
Qed.

Lemma filter_all (P : string -> bool) (xs : list string) :
  (forall x, In x xs -> P x = true) -> filter P xs = xs.
Proof.
  induction xs as [|x r IH]; intros H; simpl; [reflexivity|].
  rewrite (H x) by now left. f_equal. apply IH. intros y Hy. apply H. now right.
Qed.

Lemma first_seen_filter (xs seen : list string) :
  NoDup xs -> first_seen seen xs = filter (fun k => negb (str_in k seen)) xs.
Proof.
  intros Hnd. revert seen. induction Hnd as [|x r Hx Hnd IH]; intros seen.
  - reflexivity.
  - cbn [first_seen filter]. destruct (str_in x seen) eqn:E; cbn [negb].
    + apply IH.
    + f_equal. rewrite IH. apply filter_ext_in. intros k Hk. cbn [str_in].
      destruct (String.eqb_spec k x) as [->|_]; [contradiction|reflexivity].
Qed.

Lemma keys_del {V : Type} (d : dict V) (k : string) :
  PyDict.wf d ->
  PyDict.keys (PyDict.del d k)
  = filter (fun k' => negb (String.eqb k' k)) (PyDict.keys d).
Proof.
  unfold PyDict.wf. induction d as [|[k0 v0] r IH]; intros Hnd; [reflexivity|].
  inversion Hnd as [|? ? Hout Hnd']; subst. cbn [PyDict.del PyDict.keys map fst filter].
  rewrite String.eqb_sym. destruct (String.eqb_spec k0 k) as [->|Hne]; cbn [negb].
  - symmetry. apply filter_all. intros x Hx.
    destruct (String.eqb_spec x k) as [->|_]; [contradiction|reflexivity].
  - cbn [PyDict.keys map fst]. f_equal. now apply IH.
Qed.

Lemma keys_fold_del {V : Type} (ks : list string) (d : dict V) :
  PyDict.wf d ->
  PyDict.keys (fold_left (@PyDict.del V) ks d)
  = filter (fun k => negb (str_in k ks)) (PyDict.keys d).
Proof.
  revert d. induction ks as [|a r IH]; intros d Hwf; cbn [fold_left].
  - symmetry. now apply filter_all.
  - rewrite IH by now apply PyDictFacts.wf_del.
    rewrite keys_del by assumption. rewrite filter_filter_str.
    apply filter_ext. intros k. cbn [str_in].
    now destruct (String.eqb k a).
Qed.

Section OrderFacts.
Context `{RT : PyRuntime}.

Lemma getitem_present t u :
  PyDict.mem t u = true -> snd (getitem t u) = t.
Proof.
  unfold PyDict.mem, getitem. now destruct (PyDict.get t u).
Qed.

Lemma keys_getitem t u :
  PyDict.keys (snd (getitem t u))
  = if PyDict.mem t u then PyDict.keys t else (PyDict.keys t ++ [u])%list.
Proof.
  unfold getitem, PyDict.mem. destruct (PyDict.get t u) eqn:E; cbn [snd].
  - reflexivity.
  - rewrite PyDictFacts.keys_set. unfold PyDict.mem. now rewrite E.
Qed.

Lemma mem_getitem t u : PyDict.mem (snd (getitem t u)) u = true.
Proof. unfold PyDict.mem. now rewrite getitem_get, String.eqb_refl. Qed.

Lemma keys_set_present (t : streak_table) u m :
  PyDict.mem t u = true -> PyDict.keys (PyDict.set t u m) = PyDict.keys t.
Proof. intros H. now rewrite PyDictFacts.keys_set, H. Qed.

Lemma keys_bump u t a :
  PyDict.keys (bump u t a)
  = if PyDict.mem t u then PyDict.keys t else (PyDict.keys t ++ [u])%list.
Proof.
  unfold bump. destruct (getitem t u) as [m t1] eqn:E1.
  assert (Ht1 : t1 = snd (getitem t u)) by now rewrite E1.
  destruct (getitem t1 u) as [m' t2] eqn:E2.
  assert (Ht2 : t2 = t1).
  { replace t2 with (snd (getitem t1 u)) by now rewrite E2.
    apply getitem_present. rewrite Ht1. apply mem_getitem. }
  rewrite keys_set_present by (rewrite Ht2, Ht1; apply mem_getitem).
  rewrite Ht2, Ht1. apply keys_getitem.
Qed.

Lemma mem_bump u t a : PyDict.mem (bump u t a) u = true.
Proof. unfold PyDict.mem. now rewrite bump_get, String.eqb_refl. Qed.

Lemma keys_del_ip u t a :
  PyDict.keys (del_ip u t a)
  = if PyDict.mem t u then PyDict.keys t else (PyDict.keys t ++ [u])%list.
Proof.
  unfold del_ip. destruct (getitem t u) as [m t1] eqn:E1.
  assert (Ht1 : t1 = snd (getitem t u)) by now rewrite E1.
  rewrite keys_set_present by (rewrite Ht1; apply mem_getitem).
  rewrite Ht1. apply keys_getitem.
Qed.

Lemma mem_del_ip u t a : PyDict.mem (del_ip u t a) u = true.
Proof. unfold PyDict.mem. now rewrite del_ip_get, String.eqb_refl. Qed.

Lemma keys_fold_bump u ips t :
  PyDict.keys (snd (getitem (fold_left (bump u) ips t) u))
  = if PyDict.mem t u then PyDict.keys t else (PyDict.keys t ++ [u])%list.
Proof.
  revert t. induction ips as [|a r IH]; intros t; cbn [fold_left].
  - apply keys_getitem.
  - rewrite IH, mem_bump. apply keys_bump.
Qed.

Lemma keys_fold_del_ip u ks t :
  PyDict.mem t u = true ->
  PyDict.keys (fold_left (del_ip u) ks t) = PyDict.keys t.
Proof.
  revert t. induction ks as [|a r IH]; intros t H; cbn [fold_left]; [reflexivity|].
  rewrite IH by apply mem_del_ip. now rewrite keys_del_ip, H.
Qed.

Lemma keys_update_user t u ips :
  PyDict.keys (update_user t (u, ips))
  = if PyDict.mem t u then PyDict.keys t else (PyDict.keys t ++ [u])%list.
Proof.
  unfold update_user.
  destruct (getitem (fold_left (bump u) (set_iter ips) t) u) as [m t2] eqn:E.
  assert (Ht2 : t2 = snd (getitem (fold_left (bump u) (set_iter ips) t) u))
    by now rewrite E.
  rewrite keys_fold_del_ip by (rewrite Ht2; apply mem_getitem).
  rewrite Ht2. apply keys_fold_bump.
Qed.

Lemma keys_fold_update ca t :
  PyDict.keys (fold_left update_user ca t)
  = (PyDict.keys t ++ first_seen (PyDict.keys t) (PyDict.keys ca))%list.
Proof.
  revert t. induction ca as [|[u ips] r IH]; intros t; cbn [fold_left].
  - cbn. now rewrite app_nil_r.
  - rewrite IH, keys_update_user, mem_str_in.
    cbn [PyDict.keys map fst first_seen]. fold (PyDict.keys r).
    destruct (str_in u (PyDict.keys t)); [reflexivity|].
    rewrite <- app_assoc. cbn [app]. do 2 f_equal. apply first_seen_ext.
    intros y. rewrite in_app_iff. simpl. tauto.
Qed.

Lemma keys_update t ca :
  table_wf t -> PyDict.wf ca ->
  PyDict.keys (_update_ip_streaks t ca)
  = (filter (PyDict.mem ca) (PyDict.keys t)
     ++ filter (fun k => negb (PyDict.mem t k)) (PyDict.keys ca))%list.
Proof.
  intros Hwf Hca. unfold _update_ip_streaks.
  set (t1 := fold_left update_user ca t).
  assert (Hwf1 : PyDict.wf t1) by (apply fold_update_wf; assumption).
  rewrite keys_fold_del by assumption.
  assert (E : filter (fun k => negb (str_in k (filter (fun u => negb (PyDict.mem ca u))
                                                (PyDict.keys t1))))
                     (PyDict.keys t1)
              = filter (PyDict.mem ca) (PyDict.keys t1)).
  { apply filter_ext_in. intros k Hk. rewrite str_in_filter.
    apply str_in_In in Hk. rewrite Hk. cbn [andb]. apply negb_involutive. }
  rewrite E. unfold t1. rewrite keys_fold_update, filter_app.
  rewrite first_seen_filter by exact Hca. f_equal.
  rewrite filter_filter_str.
  apply filter_ext_in. intros k Hk. rewrite <- mem_str_in.
  apply PyDictFacts.mem_In in Hk. rewrite Hk. apply andb_true_r.
Qed.
End OrderFacts.

Lemma fold_del_all {V : Type} (d : dict V) :
  fold_left (@PyDict.del V) (PyDict.keys d) d = [].
Proof.
  induction d as [|[k v] r IH]; [reflexivity|].
  cbn [PyDict.keys map fst fold_left PyDict.del]. now rewrite String.eqb_refl.
Qed.

(** X3. After [_update_ip_streaks] the table has an entry for a user
    exactly when the snapshot has one, and the addresses of that entry are
    exactly the user's addresses in the snapshot: nothing stale, nothing
    missing. *)
Theorem X3_update_reflects_snapshot `{RT : PyRuntime}
    (t : streak_table) (current_active : dict (list string)) (user : string) :
  table_wf t -> PyDict.wf current_active ->
  let after := _update_ip_streaks t current_active in
  PyDict.mem after user = PyDict.mem current_active user
  /\ (forall ips, PyDict.get current_active user = Some ips ->
        exists ip_map, PyDict.get after user = Some ip_map
                       /\ NoDup (PyDict.keys ip_map)
                       /\ forall a, In a (PyDict.keys ip_map) <-> In a ips).
Proof.
  intros Hwf Hca after.
  assert (Hpresent : forall ips, PyDict.get current_active user = Some ips ->
            exists ip_map, PyDict.get after user = Some ip_map
                           /\ NoDup (PyDict.keys ip_map)
                           /\ forall a, In a (PyDict.keys ip_map) <-> In a ips).
  { intros ips Hget.
    destruct (update_present user Hwf Hca Hget) as (m & Hm & Hchar).
    exists m. split; [exact Hm|split].
    - destruct (update_wf current_active Hwf) as [_ Hall]. eapply Hall, Hm.
    - intros a. rewrite <- (str_in_In a ips). specialize (Hchar a).
      destruct (str_in a ips).
      + split; [reflexivity|]. intros _.
        destruct (in_dec string_dec a (PyDict.keys m)) as [Hin|Hout]; [assumption|].
        apply PyDictFacts.get_None in Hout. congruence.
      + split; [|discriminate]. intros Hin.
        apply PyDictFacts.get_None in Hchar. contradiction. }
  split; [|exact Hpresent].
  destruct (PyDict.get current_active user) as [ips|] eqn:E.
  - destruct (Hpresent ips eq_refl) as (m & Hm & _).
    unfold PyDict.mem. now rewrite Hm, E.
  - unfold PyDict.mem. rewrite E. unfold after. now rewrite update_absent.
Qed.

Lemma sample_old_streaks_wf : table_wf Sample.old_streaks.
Proof.
  split.
  - repeat constructor; simpl; intuition discriminate.
  - intros u m. simpl.
    destruct (String.eqb u "bob"); [intros [= <-]|];
      [|destruct (String.eqb u "carol"); [intros [= <-]|discriminate]];
      repeat constructor; simpl; intuition discriminate.
Defined.

Lemma X3_update_reflects_snapshot_witness :
  PyDict.mem (_update_ip_streaks Sample.old_streaks
                [("dave", ["4.4.4.1"]); ("bob", ["2.2.2.2"; "5.5.5.5"])]) "carol"
  = false.
Proof.
  assert (Hca : PyDict.wf [("dave", ["4.4.4.1"]); ("bob", ["2.2.2.2"; "5.5.5.5"])])
    by (repeat constructor; simpl; intuition discriminate).
  rewrite (proj1 (@X3_update_reflects_snapshot insertion_order_runtime
                    Sample.old_streaks _ "carol" sample_old_streaks_wf Hca)).
  reflexivity.
Defined.

(** X4. The order of the table after [_update_ip_streaks]: first the users
    the table already had and the snapshot still has, in the order they had
    in the table, then the users new to the table, in the order of the
    snapshot. *)
Theorem X4_update_order `{RT : PyRuntime}
    (t : streak_table) (current_active : dict (list string)) :
  table_wf t -> PyDict.wf current_active ->
  PyDict.keys (_update_ip_streaks t current_active)
  = (filter (fun user => PyDict.mem current_active user) (PyDict.keys t)
     ++ filter (fun user => negb (PyDict.mem t user)) (PyDict.keys current_active))%list.
Proof. intros Hwf Hca. now apply keys_update. Qed.

Lemma X4_update_order_witness :
  PyDict.keys (_update_ip_streaks Sample.old_streaks
                 [("dave", ["4.4.4.1"]); ("bob", ["2.2.2.2"; "5.5.5.5"]);
                  ("erin", [])])
  = ["bob"; "dave"; "erin"].
Proof.
  assert (Hca : PyDict.wf [("dave", ["4.4.4.1"]); ("bob", ["2.2.2.2"; "5.5.5.5"]);
                           ("erin", @nil string)])
    by (repeat constructor; simpl; intuition discriminate).
  rewrite (@X4_update_order insertion_order_runtime Sample.old_streaks _
             sample_old_streaks_wf Hca).
  reflexivity.
Defined.

(** X5. A cycle that finds the snapshot empty empties the streak table,
    whatever the table held. *)
Theorem X5_empty_snapshot_clears `{RT : PyRuntime} (t : streak_table) :
  _update_ip_streaks t (fst (check_ip_used [])) = []
  /\ _update_ip_streaks t [] = [].
Proof.
  assert (H : _update_ip_streaks t [] = []).
  { unfold _update_ip_streaks. cbn [fold_left].
    rewrite (filter_all (fun u => negb (PyDict.mem [] u))) by reflexivity.
    apply fold_del_all. }
  split; [exact H|exact H].
Qed.

(** X6. One cycle's effect on a streak, whatever the table held: an address
    in the user's current set gets the old streak plus one, or 1 when it
    had none; an address that is not in the current set, or whose user is
    not in the snapshot, has no streak afterwards. *)
Theorem X6_update_step `{RT : PyRuntime}
    (t : streak_table) (current_active : dict (list string))
    (user ip_addr : string) :
  table_wf t -> PyDict.wf current_active ->
  streak (_update_ip_streaks t current_active) user ip_addr
  = match PyDict.get current_active user with
    | Some ips =>
        if str_in ip_addr ips
        then Some (match streak t user ip_addr with
                   | Some n => n + 1
                   | None => 1
                   end)%Z
        else None
    | None => None
    end.
Proof.
  intros Hwf Hca. rewrite update_streak by assumption.
  destruct (PyDict.get current_active user) as [ips|]; [|reflexivity].
  destruct (str_in ip_addr ips); [|reflexivity].
  unfold next_streak. now destruct (streak t user ip_addr).
Qed.

Lemma X6_update_step_witness :
  streak (_update_ip_streaks Sample.old_streaks
            [("bob", ["2.2.2.2"; "5.5.5.5"])]) "bob" "2.2.2.2" = Some 2%Z.
Proof.
  assert (Hca : PyDict.wf [("bob", ["2.2.2.2"; "5.5.5.5"])])
    by (repeat constructor; simpl; intuition discriminate).
  rewrite (@X6_update_step insertion_order_runtime Sample.old_streaks _
             "bob" "2.2.2.2" sample_old_streaks_wf Hca).
  reflexivity.
Defined.

(** ** Streaks along a run *)

Section BoundFacts.
Context `{RT : PyRuntime}.

Lemma cycle_bounded k t snap :
  table_wf t -> (0 <= k)%Z -> bounded_by k t ->
  bounded_by (k + 1) (_update_ip_streaks t (fst (check_ip_used snap))).
Proof.
  intros Hwf Hk Hb u a n. rewrite cycle_streak by assumption.
  destruct (is_active snap u a); [|discriminate].
  unfold next_streak. destruct (streak t u a) as [m|] eqn:E; cbn [get_default].
  - intros [= <-]. specialize (Hb u a m E). lia.
  - intros [= <-]. lia.
Qed.

Lemma run_bounded (PanelType : Type) (cycles : list (surroundings PanelType))
    (panel_data : PanelType) (g : globals) (k : Z) :
  table_wf (IP_STREAKS g) -> (0 <= k)%Z -> bounded_by k (IP_STREAKS g) ->
  bounded_by (k + Z.of_nat (List.length cycles))
    (IP_STREAKS (final (run_check_users_usage cycles panel_data g))).
Proof.
  revert g k. induction cycles as [|c rest IH]; intros g k Hwf Hk Hb.
  - cbn. intros u a n H. specialize (Hb u a n H). lia.
  - cbn [run_check_users_usage].
    pose proof (cycle_table (disable_user_now c) (cycle_config c) panel_data
                  {| ACTIVE_USERS := polled c; IP_STREAKS := IP_STREAKS g |}) as Htab.
    cbn [ACTIVE_USERS IP_STREAKS] in Htab.
    pose proof (cycle_bounded (polled c) Hwf Hk Hb) as Hstep.
    pose proof (update_wf (fst (check_ip_used (polled c))) Hwf) as Hwf'.
    rewrite <- Htab in Hstep, Hwf'.
    assert (Hweak : bounded_by (k + Z.of_nat (List.length (c :: rest)))
                      (IP_STREAKS (final (check_users_usage (disable_user_now c)
                         (cycle_config c) panel_data
                         {| ACTIVE_USERS := polled c; IP_STREAKS := IP_STREAKS g |})))).
    { intros u a n H. specialize (Hstep u a n H). cbn [List.length]. lia. }
    destruct (raised (check_users_usage _ _ _ _)); [exact Hweak|].
    destruct (CHECK_INTERVAL (sleep_config c)); [|exact Hweak].
    cbn [final].
    replace (k + Z.of_nat (List.length (c :: rest)))%Z
      with ((k + 1) + Z.of_nat (List.length rest))%Z by (cbn [List.length]; lia).
    apply IH; [assumption|lia|assumption].
Qed.
End BoundFacts.

(** X7. In a process that started with an empty streak table, after any
    number of cycles, however they ended, every streak in the table is at
    least 1 and at most the number of cycles. *)
Theorem X7_streak_bounds `{RT : PyRuntime} (PanelType : Type)
    (cycles : list (surroundings PanelType)) (panel_data : PanelType)
    (active : dict UserType) (user ip_addr : string) (n : Z) :
  streak (IP_STREAKS (final (run_check_users_usage cycles panel_data
                               {| ACTIVE_USERS := active; IP_STREAKS := [] |})))
         user ip_addr = Some n ->
  (1 <= n <= Z.of_nat (List.length cycles))%Z.
Proof.
  intros H.
  apply (@run_bounded _ PanelType cycles panel_data
           {| ACTIVE_USERS := active; IP_STREAKS := [] |} 0%Z) in H.
  - lia.
  - apply table_wf_nil.
  - lia.
  - intros u a m. discriminate.
Qed.

Lemma X7_streak_bounds_witness : (1 <= 2 <= 2)%Z.
Proof.
  apply (@X7_streak_bounds insertion_order_runtime unit Sample.two_cycles tt []
           "bob" "2.2.2.1" 2%Z).
  vm_compute. reflexivity.
Defined.

(** ** The order of the report *)

Section SortFacts.
Variable A : Type.
Variable key : A -> Z.

Local Abbreviation desc := (descending key).

Lemma insert_desc_perm (x : A) (xs : list A) :
  Permutation (insert_desc key x xs) (x :: xs).
Proof.
  induction xs as [|y r IH]; cbn [insert_desc]; [reflexivity|].
  destruct (key x <? key y)%Z; [|reflexivity].
  rewrite IH. apply perm_swap.
Qed.

Lemma sorted_desc_perm (xs : list A) : Permutation (sorted_desc key xs) xs.
Proof.
  unfold sorted_desc. induction xs as [|x r IH]; cbn [fold_right]; [reflexivity|].
  rewrite insert_desc_perm. now constructor.
Qed.

Lemma insert_desc_sorted (x : A) (xs : list A) :
  StronglySorted desc xs -> StronglySorted desc (insert_desc key x xs).
Proof.
  induction 1 as [|y r Hr IH Hy]; cbn [insert_desc].
  - repeat constructor.
  - destruct (Z.ltb_spec (key x) (key y)) as [Hlt|Hge].
    + constructor; [exact IH|].
      apply Forall_forall. intros z Hz.
      apply (Permutation_in _ (insert_desc_perm x r)) in Hz.
      destruct Hz as [<-|Hz]; [unfold descending; lia|].
      rewrite Forall_forall in Hy. now apply Hy.
    + constructor; [now constructor|].
      constructor; [exact Hge|].
      apply Forall_forall. intros z Hz. rewrite Forall_forall in Hy.
      specialize (Hy z Hz). unfold descending in *. lia.
Qed.

Lemma sorted_desc_sorted (xs : list A) : StronglySorted desc (sorted_desc key xs).
Proof.
  unfold sorted_desc. induction xs as [|x r IH]; cbn [fold_right].
  - constructor.
  - now apply insert_desc_sorted.
Qed.

(** Items with the same key keep the order they came in. *)
Lemma insert_desc_stable (k : Z) (x : A) (xs : list A) :
  filter (fun y => (key y =? k)%Z) (insert_desc key x xs)
  = filter (fun y => (key y =? k)%Z) (x :: xs).
Proof.
  induction xs as [|y r IH]; cbn [insert_desc]; [reflexivity|].
  destruct (Z.ltb_spec (key x) (key y)) as [Hlt|Hge]; [|reflexivity].
  cbn [filter] in *. rewrite IH.
  destruct (Z.eqb_spec (key x) k) as [Ex|_]; [|reflexivity].
  destruct (Z.eqb_spec (key y) k) as [Ey|_]; [lia|reflexivity].
Qed.

Lemma sorted_desc_stable (k : Z) (xs : list A) :
  filter (fun y => (key y =? k)%Z) (sorted_desc key xs)
  = filter (fun y => (key y =? k)%Z) xs.
Proof.
  unfold sorted_desc. induction xs as [|x r IH]; cbn [fold_right]; [reflexivity|].
  rewrite insert_desc_stable. cbn [filter]. now rewrite IH.
Qed.

Lemma filter_sorted (P : A -> bool) (xs : list A) :
  StronglySorted desc xs -> StronglySorted desc (filter P xs).
Proof.
  induction 1 as [|y r Hr IH Hy]; cbn [filter]; [constructor|].
  destruct (P y); [|exact IH]. constructor; [exact IH|].
  apply Forall_forall. intros z Hz. apply filter_In in Hz as [Hz _].
  rewrite Forall_forall in Hy. now apply Hy.
Qed.

Lemma filter_perm (P : A -> bool) (xs ys : list A) :
  Permutation xs ys -> Permutation (filter P xs) (filter P ys).
Proof.
  induction 1 as [|x l l' _ IH|x y l|l l' l'' _ IH1 _ IH2]; cbn [filter].
  - constructor.
  - destruct (P x); [now constructor|exact IH].
  - destruct (P x), (P y); try reflexivity. apply perm_swap.
  - now transitivity (filter P l').
Qed.

Lemma filter_comm (P Q : A -> bool) (xs : list A) :
  filter P (filter Q xs) = filter Q (filter P xs).
Proof.
  induction xs as [|x r IH]; cbn [filter]; [reflexivity|].
  destruct (Q x) eqn:Eq, (P x) eqn:Ep; cbn [filter];
    rewrite ?Eq, ?Ep, IH; reflexivity.
Qed.
End SortFacts.

Section ReportFacts.
Context `{RT : PyRuntime}.

Lemma format_blocks_map (items : list (string * dict Z)) :
  format_blocks items
  = map (fun kv => format_block (fst kv) (snd kv)) (filter has_addresses items).
Proof.
  induction items as [|[u m] r IH]; [reflexivity|].
  cbn [format_blocks filter]. unfold has_addresses at 1. cbn [snd].
  destruct m as [|kv m]; [exact IH|]. cbn [map fst snd]. now rewrite IH.
Qed.
End ReportFacts.

Lemma of_nat_eqb (a b : nat) : (Z.of_nat a =? Z.of_nat b)%Z = (a =? b)%nat.
Proof.
  destruct (Nat.eqb_spec a b) as [->|Hne].
  - apply Z.eqb_refl.
  - apply Z.eqb_neq. lia.
Qed.

(** X8. [_format_streak_messages] makes one block for each user of the
    table that has at least one address and none for the others; the blocks
    come in descending order of the number of addresses, and users with the
    same number come in the order they have in the table. *)
Theorem X8_report_order (t : streak_table) :
  exists users,
    _format_streak_messages t = map (fun kv => format_block (fst kv) (snd kv)) users
    /\ Permutation users (filter has_addresses t)
    /\ StronglySorted
         (fun x y => List.length (snd y) <= List.length (snd x)) users
    /\ forall n,
         filter (fun kv => (List.length (snd kv) =? n)%nat) users
         = filter (fun kv => (List.length (snd kv) =? n)%nat)
                  (filter has_addresses t).
Proof.
  set (key := fun kv : string * dict Z => Z.of_nat (List.length (snd kv))).
  exists (filter has_addresses (sorted_desc key t)).
  split; [|split; [|split]].
  - unfold _format_streak_messages. apply format_blocks_map.
  - apply filter_perm, sorted_desc_perm.
  - pose proof (filter_sorted has_addresses (sorted_desc_sorted key t)) as H.
    induction H as [|x r Hr IH Hx]; constructor; [exact IH|].
    eapply Forall_impl; [|exact Hx]. intros y Hy. unfold descending, key in Hy.
    cbv beta in Hy. apply Nat2Z.inj_le. exact Hy.
  - intros n.
    assert (E : forall l : list (string * dict Z),
               filter (fun kv => (List.length (snd kv) =? n)%nat) l
               = filter (fun kv => (key kv =? Z.of_nat n)%Z) l).
    { intros l. apply filter_ext. intros kv. unfold key.
      symmetry. apply of_nat_eqb. }
    rewrite !E, filter_comm, sorted_desc_stable. apply filter_comm.
Qed.

(** X9. A block of the report is the header with the number of the user's
    addresses, two spaces and a line break, and then one line per address,
    in descending order of the streak, addresses with the same streak in
    the order they have in the user's mapping. *)
Theorem X9_block_order (user : string) (ip_map : dict Z) :
  exists lines,
    format_block user ip_map
    = (user ++ " всего " ++ str_of_nat (List.length ip_map) ++ " активных ip")
      ++ "  " ++ LF ++ join LF (map format_line lines)
    /\ Permutation lines ip_map
    /\ StronglySorted (fun x y => (snd y <= snd x)%Z) lines
    /\ forall n,
         filter (fun kv => (snd kv =? n)%Z) lines
         = filter (fun kv => (snd kv =? n)%Z) ip_map.
Proof.
  exists (sorted_desc (fun kv : string * Z => snd kv) ip_map).
  split; [|split; [|split]].
  - unfold format_block.
    now rewrite (Permutation_length (sorted_desc_perm _ ip_map)).
  - apply sorted_desc_perm.
  - apply (sorted_desc_sorted (fun kv : string * Z => snd kv)).
  - intros n. apply (sorted_desc_stable (fun kv : string * Z => snd kv)).
Qed.

(** ** More on one cycle *)

Lemma sum_nat_perm (xs ys : list nat) :
  Permutation xs ys -> sum_nat xs = sum_nat ys.
Proof.
  induction 1 as [|x l l' _ IH|x y l|l l' l'' _ IH1 _ IH2]; cbn [sum_nat]; lia.
Qed.

Lemma sum_by_keys {V : Type} (f : V -> nat) (d : dict V) :
  PyDict.wf d ->
  sum_nat (map f (PyDict.values d))
  = sum_nat (map (fun k => match PyDict.get d k with
                           | Some v => f v
                           | None => 0
                           end) (PyDict.keys d)).
Proof.
  unfold PyDict.wf. induction d as [|[k v] r IH]; intros Hnd; [reflexivity|].
  inversion Hnd as [|? ? Hout Hnd']; subst.
  cbn [PyDict.values PyDict.keys map fst snd sum_nat PyDict.get].
  rewrite String.eqb_refl. f_equal.
  fold (PyDict.values r). fold (PyDict.keys r). rewrite IH by assumption.
  f_equal. apply map_ext_in. intros k' Hk'.
  destruct (String.eqb_spec k' k) as [->|_]; [contradiction|reflexivity].
Qed.

(** The total of the table after the update is the total of the reduced
    snapshot. *)
Lemma update_total `{RT : PyRuntime} (t : streak_table) (active : dict UserType) :
  table_wf t ->
  sum_nat (map (@List.length (string * Z))
             (PyDict.values (_update_ip_streaks t (fst (check_ip_used active)))))
  = sum_nat (map (@List.length string) (PyDict.values (fst (check_ip_used active)))).
Proof.
  intros Hwf.
  set (ca := fst (check_ip_used active)).
  set (after := _update_ip_streaks t ca).
  assert (Hca : PyDict.wf ca) by apply check_ip_used_wf.
  assert (Hafter : table_wf after) by now apply update_wf.
  transitivity
    (sum_nat (map (fun k => match PyDict.get after k with
                            | Some v => List.length v
                            | None => 0
                            end) (PyDict.keys after)));
    [exact (sum_by_keys (@List.length (string * Z)) (proj1 Hafter))|].
  transitivity
    (sum_nat (map (fun k => match PyDict.get ca k with
                            | Some v => List.length v
                            | None => 0
                            end) (PyDict.keys ca)));
    [|symmetry; exact (sum_by_keys (@List.length string) Hca)].
  assert (Hmem : forall u, In u (PyDict.keys after) <-> In u (PyDict.keys ca)).
  { intros u. rewrite <- !PyDictFacts.mem_In. unfold after.
    unfold PyDict.mem at 1. rewrite update_get by assumption.
    destruct (PyDict.get ca u) as [ips|] eqn:E.
    - assert (Hm : PyDict.mem ca u = true) by (unfold PyDict.mem; now rewrite E).
      rewrite Hm. destruct (fold_update_present u Hwf Hca E) as [Hne _].
      destruct (PyDict.get (fold_left update_user ca t) u); [tauto|congruence].
    - assert (Hm : PyDict.mem ca u = false) by (unfold PyDict.mem; now rewrite E).
      rewrite Hm. tauto. }
  assert (Hperm : Permutation (PyDict.keys after) (PyDict.keys ca))
    by (apply NoDup_Permutation; [exact (proj1 Hafter)|exact Hca|exact Hmem]).
  rewrite <- (sum_nat_perm (Permutation_map _ Hperm)).
  f_equal. apply map_ext_in. intros u Hu. apply Hmem in Hu.
  destruct (PyDict.get ca u) as [ips|] eqn:E.
  - destruct (update_present u Hwf Hca E) as (m & Hm & _).
    fold ca in Hm. fold after in Hm. rewrite Hm.
    apply update_entry_length with (t := t) (ca := ca) (u := u); try assumption.
    unfold ca in E. rewrite check_ip_used_get in E.
    destruct (PyDict.get active u); [|discriminate]. injection E as <-.
    apply unique_ips_NoDup.
  - apply PyDictFacts.get_None in E. contradiction.
Qed.

Lemma check_ip_used_total `{RT : PyRuntime} (active : dict UserType) :
  exists logs,
    snd (check_ip_used active)
    = (logs ++ [LogInfo ("Количество всех активных IP-адресов за прогон: "
                         ++ str_of_nat
                              (sum_nat (map (@List.length string)
                                          (PyDict.values (fst (check_ip_used active))))))])%list.
Proof.
  unfold check_ip_used.
  destruct (fold_left (snapshot_user active) (PyDict.keys active) ([], []))
    as [ca logs].
  now exists logs.
Qed.

(** X10. A configuration without [GENERAL_LIMIT] makes the cycle raise a
    [KeyError] for that key, but only after the streak table has been
    updated and the report dispatched: the trace is the log lines of the
    snapshot and the report, nobody is warned or disabled, and the snapshot
    is not cleared. *)
Theorem X10_missing_general_limit `{RT : PyRuntime} (PanelType : Type)
    (disable_user : PanelType -> UserType -> option exn)
    (config_data : config) (panel_data : PanelType) (g : globals) :
  GENERAL_LIMIT config_data = None ->
  let o := check_users_usage disable_user config_data panel_data g in
  raised o = Some (KeyError "GENERAL_LIMIT")
  /\ IP_STREAKS (final o)
     = _update_ip_streaks (IP_STREAKS g) (fst (check_ip_used (ACTIVE_USERS g)))
  /\ trace o
     = (snd (check_ip_used (ACTIVE_USERS g))
        ++ map SendLogs (shorter_messages (IP_STREAKS (final o))))%list
  /\ disabled (trace o) = []
  /\ ACTIVE_USERS (final o) = ACTIVE_USERS g.
Proof.
  intros Hnone o.
  assert (Hr : raised o = Some (KeyError "GENERAL_LIMIT"))
    by (unfold o; now rewrite cycle_raised, Hnone).
  split; [exact Hr|split; [apply cycle_table|split; [|split]]].
  - unfold o. rewrite cycle_trace, cycle_table, Hnone. now rewrite app_nil_r.
  - unfold o. now rewrite cycle_disabled, Hnone.
  - unfold o in *. now rewrite cycle_snapshot, Hr.
Qed.

Lemma X10_missing_general_limit_witness :
  let o := check_users_usage Sample.panel_ok
             {| EXCEPT_USERS := None; SPECIAL_LIMIT := None;
                GENERAL_LIMIT := None; CHECK_INTERVAL := Some 60%Z |}
             tt Sample.polled_busy in
  raised o = Some (KeyError "GENERAL_LIMIT")
  /\ ACTIVE_USERS (final o) = Sample.busy.
Proof.
  intros o.
  pose proof (@X10_missing_general_limit insertion_order_runtime unit Sample.panel_ok
                {| EXCEPT_USERS := None; SPECIAL_LIMIT := None;
                   GENERAL_LIMIT := None; CHECK_INTERVAL := Some 60%Z |}
                tt Sample.polled_busy eq_refl) as (Hr & _ & _ & _ & Hs).
  split; [exact Hr|exact Hs].
Defined.

(** X11. When the loop reaches a user over the limit and the disable action
    raises something that is not a value error, the cycle raises it: the
    trace ends with the call for that user, no later user of the table is
    looked at, the snapshot is not cleared, and the streak table keeps the
    update of this cycle. *)
Theorem X11_other_errors_propagate `{RT : PyRuntime} (PanelType : Type)
    (disable_user : PanelType -> UserType -> option exn)
    (config_data : config) (panel_data : PanelType) (g : globals)
    (limit_number : Z) (handled rest : list (string * dict Z))
    (user_name : string) (ip_map : dict Z) (e : exn) :
  let o := check_users_usage disable_user config_data panel_data g in
  let except_users := get_default (EXCEPT_USERS config_data) [] in
  let special_limit := get_default (SPECIAL_LIMIT config_data) [] in
  let loop := enforce disable_user panel_data except_users special_limit limit_number in
  GENERAL_LIMIT config_data = Some limit_number ->
  IP_STREAKS (final o) = (handled ++ (user_name, ip_map) :: rest)%list ->
  snd (loop handled) = None ->
  over_limit except_users special_limit limit_number (user_name, ip_map) = true ->
  disable_user panel_data {| name := user_name; ip := [] |} = Some e ->
  (forall msg, e <> ValueError msg) ->
  raised o = Some e
  /\ trace o
     = (snd (check_ip_used (ACTIVE_USERS g))
        ++ map SendLogs (shorter_messages (IP_STREAKS (final o)))
        ++ fst (loop handled)
        ++ [LogWarning (warning_message user_name ip_map);
            SendLogs ("<b>Warning: </b>" ++ warning_message user_name ip_map);
            DisableUser {| name := user_name; ip := [] |}])%list
  /\ disabled (trace o) = (disabled (fst (loop handled)) ++ [user_name])%list
  /\ ACTIVE_USERS (final o) = ACTIVE_USERS g
  /\ IP_STREAKS (final o)
     = _update_ip_streaks (IP_STREAKS g) (fst (check_ip_used (ACTIVE_USERS g))).
Proof.
  intros o except_users special_limit loop Hlim Htable Hhandled Hflag Hcall Hother.
  pose proof (cycle_table disable_user config_data panel_data g) as Htab.
  pose proof (cycle_trace disable_user config_data panel_data g) as Htrace.
  pose proof (cycle_raised disable_user config_data panel_data g) as Hraised.
  pose proof (cycle_snapshot disable_user config_data panel_data g) as Hsnap.
  fold o in Htab, Htrace, Hraised, Hsnap.
  rewrite Hlim, <- Htab in Htrace, Hraised.
  fold except_users special_limit in Htrace, Hraised. fold loop in Htrace, Hraised.
  assert (Hdead : survived (Some e) = false).
  { destruct e as [k|msg|msg]; [reflexivity| |reflexivity].
    now destruct (Hother msg). }
  assert (Hloop : loop (IP_STREAKS (final o))
                  = ((fst (loop handled) ++ flag_events user_name ip_map)%list, Some e)).
  { rewrite Htable. unfold loop. rewrite enforce_app by exact Hhandled.
    rewrite enforce_flag by exact Hflag. rewrite Hcall, Hdead.
    unfold turn_events. rewrite Hflag. cbn [fst snd]. rewrite Hcall.
    destruct e as [k|msg|msg]; cbn [diagnostics]; rewrite ?app_nil_r;
      try reflexivity.
    now destruct (Hother msg). }
  assert (Hr : raised o = Some e) by now rewrite Hraised, Hloop.
  split; [exact Hr|split; [|split; [|split]]].
  - rewrite Htrace, Hloop. reflexivity.
  - rewrite Htrace, Hloop. cbn [fst].
    rewrite !disabled_app, disabled_sent.
    rewrite (logs_disabled (check_ip_used_logs _)). reflexivity.
  - now rewrite Hsnap, Hr.
  - exact Htab.
Qed.

Lemma X11_other_errors_propagate_witness :
  let o := check_users_usage Cases.panel_down_for_bob Sample.strict tt
             Sample.polled_busy in
  raised o = Some (OtherError "timeout")
  /\ disabled (trace o) = ["bob"]
  /\ ACTIVE_USERS (final o) = Sample.busy.
Proof.
  intros o.
  set (loop := enforce Cases.panel_down_for_bob tt
                 (get_default (EXCEPT_USERS Sample.strict) [])
                 (get_default (SPECIAL_LIMIT Sample.strict) []) 1%Z).
  assert (Hlim : GENERAL_LIMIT Sample.strict = Some 1%Z) by reflexivity.
  assert (Htable : IP_STREAKS (final o)
                   = ([("alice", Sample.alice_entry)]
                      ++ ("bob", Sample.bob_entry)
                      :: [("carol", Sample.carol_entry); ("dave", Sample.dave_entry)])%list)
    by (vm_compute; reflexivity).
  assert (Hhandled : snd (loop [("alice", Sample.alice_entry)]) = None)
    by (vm_compute; reflexivity).
  assert (Hflag : over_limit (get_default (EXCEPT_USERS Sample.strict) [])
                    (get_default (SPECIAL_LIMIT Sample.strict) []) 1%Z
                    ("bob", Sample.bob_entry) = true)
    by (vm_compute; reflexivity).
  assert (Hcall : Cases.panel_down_for_bob tt {| name := "bob"; ip := [] |}
                  = Some (OtherError "timeout"))
    by (vm_compute; reflexivity).
  assert (Hother : forall msg, OtherError "timeout" <> ValueError msg)
    by (intros msg; discriminate).
  pose proof (@X11_other_errors_propagate insertion_order_runtime unit
                Cases.panel_down_for_bob Sample.strict tt Sample.polled_busy 1%Z
                [("alice", Sample.alice_entry)]
                [("carol", Sample.carol_entry); ("dave", Sample.dave_entry)]
                "bob" Sample.bob_entry (OtherError "timeout")
                Hlim Htable Hhandled Hflag Hcall Hother)
    as (Hr & _ & Hd & Hs & _).
  split; [exact Hr|split; [|exact Hs]].
  unfold o. rewrite Hd. vm_compute. reflexivity.
Defined.

(** X12. In a cycle that has a general limit to read and a panel that fails
    by value errors only, the texts handed to [send_logs] are the chunks of
    the report followed by one warning for each user of the table who is
    over the limit and not exempt, in the order of the table, and the panel
    is asked to disable exactly those users, once each, in that order. *)
Theorem X12_cycle_traffic `{RT : PyRuntime} (PanelType : Type)
    (disable_user : PanelType -> UserType -> option exn)
    (config_data : config) (panel_data : PanelType) (g : globals)
    (limit_number : Z) :
  let o := check_users_usage disable_user config_data panel_data g in
  let streaks := IP_STREAKS (final o) in
  let over :=
    filter (over_limit (get_default (EXCEPT_USERS config_data) [])
              (get_default (SPECIAL_LIMIT config_data) []) limit_number) streaks in
  GENERAL_LIMIT config_data = Some limit_number ->
  (forall user, survived (disable_user panel_data user) = true) ->
  dispatched (trace o)
  = (shorter_messages streaks
     ++ map (fun kv => ("<b>Warning: </b>"
                        ++ warning_message (fst kv) (snd kv))%string) over)%list
  /\ disabled (trace o) = map fst over.
Proof.
  intros o streaks over Hlim Hpanel.
  pose proof (cycle_table disable_user config_data panel_data g) as Htab.
  pose proof (cycle_trace disable_user config_data panel_data g) as Htrace.
  pose proof (cycle_raised disable_user config_data panel_data g) as Hraised.
  fold o in Htab, Htrace, Hraised.
  rewrite Hlim, <- Htab in Htrace, Hraised. fold streaks in Htrace, Hraised.
  assert (Hret : raised o = None) by (eapply cycle_returns; eauto).
  rewrite Hret in Hraised. symmetry in Hraised.
  rewrite (enforce_returns _ _ _ _ _ _ Hraised) in Htrace.
  rewrite Htrace. split.
  - rewrite !dispatched_app, dispatched_sent, dispatched_flat_map.
    rewrite (logs_dispatched (check_ip_used_logs _)). reflexivity.
  - rewrite !disabled_app, disabled_sent, disabled_flat_map.
    rewrite (logs_disabled (check_ip_used_logs _)). reflexivity.
Qed.

Lemma X12_cycle_traffic_witness :
  disabled (trace (check_users_usage Sample.panel_fails_for_bob Sample.strict tt
                     Sample.polled_busy))
  = ["bob"; "dave"].
Proof.
  assert (Hlim : GENERAL_LIMIT Sample.strict = Some 1%Z) by reflexivity.
  assert (Hpanel : forall user, survived (Sample.panel_fails_for_bob tt user) = true).
  { intros user. unfold Sample.panel_fails_for_bob.
    destruct (String.eqb (name user) "bob"); reflexivity. }
  rewrite (proj2 (@X12_cycle_traffic insertion_order_runtime unit
                    Sample.panel_fails_for_bob Sample.strict tt Sample.polled_busy
                    1%Z Hlim Hpanel)).
  vm_compute. reflexivity.
Defined.

(** X13. The number in the summary line of the report is the number the
    snapshot reducer logged: the total of distinct addresses over all users
    of the snapshot. *)
Theorem X13_totals_agree `{RT : PyRuntime} (PanelType : Type)
    (disable_user : PanelType -> UserType -> option exn)
    (config_data : config) (panel_data : PanelType) (g : globals) :
  table_wf (IP_STREAKS g) ->
  let o := check_users_usage disable_user config_data panel_data g in
  let total :=
    sum_nat (map (@List.length string)
               (PyDict.values (fst (check_ip_used (ACTIVE_USERS g))))) in
  summary_line (IP_STREAKS (final o))
  = "---------" ++ LF ++ "Всего активных IP: <b>" ++ str_of_nat total ++ "</b>"
  /\ In (LogInfo ("Количество всех активных IP-адресов за прогон: "
                  ++ str_of_nat total)) (trace o).
Proof.
  intros Hwf o total.
  pose proof (cycle_table disable_user config_data panel_data g) as Htab.
  fold o in Htab.
  split.
  - unfold summary_line. rewrite Htab, update_total by assumption. reflexivity.
  - unfold o. rewrite cycle_trace.
    destruct (check_ip_used_total (ACTIVE_USERS g)) as (logs & ->).
    apply in_or_app. left. apply in_or_app. right. now left.
Qed.

Lemma X13_totals_agree_witness :
  summary_line (IP_STREAKS (final (check_users_usage Sample.panel_ok Sample.limits tt
                                     Sample.polled_busy)))
  = "---------" ++ LF ++ "Всего активных IP: <b>16</b>".
Proof.
  assert (Hwf : table_wf (IP_STREAKS Sample.polled_busy))
    by (split; [constructor | discriminate]).
  rewrite (proj1 (@X13_totals_agree insertion_order_runtime unit Sample.panel_ok
                    Sample.limits tt Sample.polled_busy Hwf)).
  vm_compute. reflexivity.
Defined.

(** ** More on the scheduler *)




Section SchedulerFacts.
Context `{RT : PyRuntime}.
Variable PanelType : Type.



End SchedulerFacts.





(** ** The notifier *)

Lemma send_logs_all (admins : list (Z * send_result)) (msg : string) :
  (forall a, In a admins -> is_interrupted (snd a) = false) ->
  snd (send_logs admins msg) = None
  /\ attempts (fst (send_logs admins msg)) = map (fun a => (fst a, msg)) admins
  /\ printed (fst (send_logs admins msg)) = failures admins.
Proof.
  induction admins as [|[admin answer] r IH]; intros Hall; [repeat split|].
  destruct IH as (Hr & Ha & Hp); [intros a Ha; apply Hall; now right|].
  pose proof (Hall (admin, answer) (or_introl eq_refl)) as Hanswer.
  cbn [send_logs]. destruct answer as [|error|what]; [| |discriminate].
  - destruct (send_logs r msg) as [evs res]. cbn [fst snd] in *.
    cbn [attempts printed map failures flat_map fst snd app].
    fold (failures r). now rewrite Hr, Ha, Hp.
  - destruct (send_logs r msg) as [evs res]. cbn [fst snd] in *.
    cbn [attempts printed map failures flat_map fst snd app].
    fold (failures r). now rewrite Hr, Ha, Hp.
Qed.

(** X16. [send_logs] tries every admin once, in order, with the same text,
    whether or not the sending to an earlier admin failed: a failure is
    printed with the admin's identifier and the error and is not raised, so
    the call returns; with no admin it sends nothing. *)
Theorem X16_send_logs_isolates_failures
    (admins : list (Z * send_result)) (msg : string) :
  (forall a, In a admins -> is_interrupted (snd a) = false) ->
  snd (send_logs admins msg) = None
  /\ attempts (fst (send_logs admins msg)) = map (fun a => (fst a, msg)) admins
  /\ printed (fst (send_logs admins msg))
     = flat_map (fun a => match snd a with
                          | SendFailed error =>
                              ["Failed to send message to admin "
                               ++ str_of_Z (fst a) ++ ": " ++ error]
                          | _ => []
                          end) admins.
Proof. apply send_logs_all. Qed.

Lemma X16_send_logs_isolates_failures_witness :
  attempts (fst (send_logs Cases.admins "report"))
  = [(11%Z, "report"); (22%Z, "report"); (33%Z, "report")]
  /\ printed (fst (send_logs Cases.admins "report"))
     = ["Failed to send message to admin 22: Forbidden"].
Proof.
  assert (Hall : forall a, In a Cases.admins -> is_interrupted (snd a) = false)
    by (intros a [<-|[<-|[<-|[]]]]; reflexivity).
  destruct (X16_send_logs_isolates_failures Cases.admins "report" Hall)
    as (_ & Ha & Hp).
  rewrite Ha, Hp. split; reflexivity.
Defined.

(** ** The noun, once more *)

(** X17. The form [_ru_plurals_logs] picks depends only on the last two
    decimal digits of the count, sign apart, and it is always one of the
    three forms of the noun. *)
Theorem X17_plural_last_two_digits (n m : Z) :
  (Z.abs n mod 100 = Z.abs m mod 100)%Z ->
  _ru_plurals_logs n = _ru_plurals_logs m
  /\ (_ru_plurals_logs n = "лог" \/ _ru_plurals_logs n = "лога"
      \/ _ru_plurals_logs n = "логов").
Proof.
  intros H. split.
  - unfold _ru_plurals_logs. cbv zeta. rewrite H.
    assert (E : forall x, (x mod 10 = (x mod 100) mod 10)%Z).
    { intros x. symmetry. apply Z.mod_mod_divide. exists 10%Z. reflexivity. }
    rewrite (E (Z.abs n)), (E (Z.abs m)), H. reflexivity.
  - unfold _ru_plurals_logs. cbv zeta.
    destruct ((11 <=? Z.abs n mod 100)%Z && (Z.abs n mod 100 <=? 14)%Z); [tauto|].
    destruct (Z.abs n mod 10 =? 1)%Z; [tauto|].
    destruct ((2 <=? Z.abs n mod 10)%Z && (Z.abs n mod 10 <=? 4)%Z); tauto.
Qed.

Lemma X17_plural_last_two_digits_witness :
  _ru_plurals_logs 1213 = _ru_plurals_logs (-13).
Proof.
  apply (proj1 (X17_plural_last_two_digits 1213 (-13) eq_refl)).
Defined.

(** ** What the limit looks at *)

Section CountOnly.
Context `{RT : PyRuntime}.
Variable PanelType : Type.
Variable disable_user : PanelType -> UserType -> option exn.
Variable panel_data : PanelType.
Variable except_users : list string.
Variable special_limit : dict Z.
Variable limit_number : Z.

Local Abbreviation enforce_loop :=
  (enforce disable_user panel_data except_users special_limit limit_number).

Lemma disabled_flag_events u m evs :
  disabled (flag_events u m ++ evs) = u :: disabled evs.
Proof. reflexivity. Qed.

Lemma enforce_count_only (items items' : list (string * dict Z)) :
  Forall2 (fun kv kv' => fst kv = fst kv'
                         /\ List.length (snd kv) = List.length (snd kv'))
          items items' ->
  disabled (fst (enforce_loop items)) = disabled (fst (enforce_loop items'))
  /\ snd (enforce_loop items) = snd (enforce_loop items').
Proof.
  induction 1 as [|[u m] [u' m'] r r' [Hu Hlen] _ [IHd IHr]]; [split; reflexivity|].
  cbn [fst snd] in Hu, Hlen. subst u'. cbn [enforce]. rewrite <- Hlen.
  destruct (str_in u except_users); [now split|].
  destruct (user_limit special_limit limit_number u <? Z.of_nat (List.length m))%Z;
    [|now split].
  destruct (disable_user panel_data {| name := u; ip := [] |}) as [[k|msg|msg]|].
  - split; reflexivity.
  - destruct (enforce_loop r) as [evs res], (enforce_loop r') as [evs' res'].
    cbn [fst snd] in *. rewrite !disabled_flag_events. cbn [disabled].
    split; congruence.
  - split; reflexivity.
  - destruct (enforce_loop r) as [evs res], (enforce_loop r') as [evs' res'].
    cbn [fst snd] in *. rewrite !disabled_flag_events. split; congruence.
Qed.
End CountOnly.

(** X18. Who is disabled depends on the number of addresses of each user
    and not on the addresses or on how long their streaks are: two tables
    with the same users in the same order and the same number of addresses
    for each make the loop call the panel for the same users and end the
    same way. *)
Theorem X18_limit_counts_addresses_only `{RT : PyRuntime} (PanelType : Type)
    (disable_user : PanelType -> UserType -> option exn) (panel_data : PanelType)
    (except_users : list string) (special_limit : dict Z) (limit_number : Z)
    (items items' : list (string * dict Z)) :
  map (fun kv => (fst kv, List.length (snd kv))) items
  = map (fun kv => (fst kv, List.length (snd kv))) items' ->
  disabled (fst (enforce disable_user panel_data except_users special_limit
                   limit_number items))
  = disabled (fst (enforce disable_user panel_data except_users special_limit
                     limit_number items'))
  /\ snd (enforce disable_user panel_data except_users special_limit
            limit_number items)
     = snd (enforce disable_user panel_data except_users special_limit
              limit_number items').
Proof.
  intros H. apply enforce_count_only.
  revert items' H. induction items as [|kv r IH]; intros [|kv' r'] H;
    try discriminate; [constructor|].
  cbn [map] in H. injection H as Hu Hlen Hrest.
  constructor; [now split|now apply IH].
Qed.

Lemma X18_limit_counts_addresses_only_witness :
  disabled (fst (enforce Sample.panel_ok tt ["carol"] [("alice", 5%Z)] 1%Z
                   Cases.table_a))
  = disabled (fst (enforce Sample.panel_ok tt ["carol"] [("alice", 5%Z)] 1%Z
                     Cases.table_b)).
Proof.
  assert (H : map (fun kv => (fst kv, List.length (snd kv))) Cases.table_a
              = map (fun kv => (fst kv, List.length (snd kv))) Cases.table_b)
    by reflexivity.
  exact (proj1 (@X18_limit_counts_addresses_only insertion_order_runtime unit
                  Sample.panel_ok tt ["carol"] [("alice", 5%Z)] 1%Z
                  Cases.table_a Cases.table_b H)).
Defined.
